(** * User-group views of zerver: setting values, membership and subgroup edits

    A shallow embedding of [zerver/views/user_groups.py].  The views are
    written against a Django store; here the store is an explicit record that
    is threaded through a small state-and-exception monad, with
    [transaction.atomic] as a combinator that restores the store when its
    body raises. *)

From stdpp Require Import base option gmap sets list strings relations numbers.

Open Scope Z_scope.
Set Warnings "-clear-no-such-hyp".

(** ** Setting values *)

Module SettingValue.

(** The request body of a group setting, as [check_group_setting] admits
    it: an int, or a dict with exactly the keys [direct_members] and
    [direct_subgroups], both lists of ints. *)
Inductive raw : Type :=
| RawInt (group_id : Z)
| RawDict (direct_members direct_subgroups : list Z).

(** [AnonymousSettingGroupDict] of zerver/lib/user_groups.py: a dataclass
    with two list fields. *)
Record AnonymousSettingGroupDict : Type := mkAnon {
  direct_members : list Z;
  direct_subgroups : list Z
}.

(** [Union[int, AnonymousSettingGroupDict]]. *)
Inductive t : Type :=
| GroupId (group_id : Z)
| Anonymous (spec : AnonymousSettingGroupDict).

(** [parse_group_setting_value].  The subscript
    [setting_value["direct_subgroups"][0]] is only reached when the list
    has length one, so the total lookup never falls back. *)
Definition parse_group_setting_value (setting_value : raw) : t :=
  match setting_value with
  | RawInt n => GroupId n
  | RawDict members subgroups =>
      if bool_decide (length members = 0%nat) && bool_decide (length subgroups = 1%nat)
      then GroupId (subgroups !!! 0%nat)
      else Anonymous (mkAnon members subgroups)
  end.

(** Python's [set(xs)] on a list of ints. *)
Definition py_set (xs : list Z) : gset Z := list_to_set xs.

(** [are_both_setting_values_equal]. *)
Definition are_both_setting_values_equal (first second : t) : bool :=
  match first, second with
  | GroupId a, GroupId b => bool_decide (a = b)
  | Anonymous a, Anonymous b =>
      bool_decide (py_set (direct_members a) = py_set (direct_members b))
      && bool_decide (py_set (direct_subgroups a) = py_set (direct_subgroups b))
  | _, _ => false
  end.

(** The comparison of [check_setting_value_changed], on two API values:
    [not are_both_setting_values_equal(current, new)]. *)
Definition settingChanged (current new : t) : bool :=
  negb (are_both_setting_values_equal current new).

End SettingValue.

Import SettingValue.

(** ** Errors *)

Module Errors.

(** Every failure of the views is a [JsonableError]; the constructors are
    the message templates.  The first seven are raised in
    zerver/views/user_groups.py itself, the others by the helpers it
    imports. *)
Inductive JsonableError : Type :=
| NoNewDataSupplied
| NothingToDo
| AlreadyMember (user_id : Z)
| NoSuchMember (user_id : Z)
| AlreadySubgroup (group_id : Z)
| AlreadySubgroupOfPassed (user_group_id : Z)
| NotSubgroup (group_id : Z)
| InvalidUserGroup
| InvalidUserGroupId (group_id : Z)
| InvalidUserId (user_id : Z)
| InvalidGroupName
| GroupNameTaken
| SettingGroupNotPermitted
| GroupNotDeletable.

(** A word between two double quotes (character 34). *)
Definition quoted (word : string) : string :=
  let double_quote := Ascii.ascii_of_nat 34 in
  String double_quote (String.append word (String double_quote EmptyString)).

Definition message (e : JsonableError) : string :=
  match e with
  | NoNewDataSupplied => "No new data supplied"
  | NothingToDo =>
      String.append "Nothing to do. Specify at least one of "
        (String.append (quoted "add")
           (String.append " or " (String.append (quoted "delete") ".")))
  | AlreadyMember _ => "User {user_id} is already a member of this group"
  | NoSuchMember _ => "There is no member '{user_id}' in this user group"
  | AlreadySubgroup _ => "User group {group_id} is already a subgroup of this group."
  | AlreadySubgroupOfPassed _ =>
      "User group {user_group_id} is already a subgroup of one of the passed subgroups."
  | NotSubgroup _ => "User group {group_id} is not a subgroup of this group."
  | InvalidUserGroup => "Invalid user group"
  | InvalidUserGroupId _ => "Invalid user group ID: {group_id}"
  | InvalidUserId _ => "Invalid user ID: {user_id}"
  | InvalidGroupName => "Invalid user group name"
  | GroupNameTaken => "User group already exists"
  | SettingGroupNotPermitted => "Insufficient permission"
  | GroupNotDeletable => "User group cannot be deleted"
  end.

(** The error taxonomy of the service. *)
Inductive kind : Type :=
| NotFoundError | ValidationError | ConflictError
| CycleError | PermissionError | ContentionError.

Definition kind_of (e : JsonableError) : kind :=
  match e with
  | NoNewDataSupplied | NothingToDo | InvalidGroupName | GroupNameTaken
  | GroupNotDeletable => ValidationError
  | AlreadyMember _ | NoSuchMember _ | AlreadySubgroup _ | NotSubgroup _ => ConflictError
  | AlreadySubgroupOfPassed _ => CycleError
  | InvalidUserGroup | InvalidUserGroupId _ | InvalidUserId _ => NotFoundError
  | SettingGroupNotPermitted => PermissionError
  end.

End Errors.

Import Errors.

(** ** The store *)

Record UserProfile : Type := mkUser {
  user_id : Z;
  user_realm : Z;
  is_bot : bool;
  is_active : bool
}.

(** A row of the user table; the key of the table is the user id. *)
Record UserRow : Type := mkUserRow {
  row_realm : Z;
  row_is_bot : bool;
  row_is_active : bool
}.

(** A group row.  [group_name] is [None] for an anonymous group. *)
Record UserGroup : Type := mkGroup {
  group_realm : Z;
  group_name : option string;
  group_description : string;
  can_mention_group : Z
}.

Record Store : Type := mkStore {
  users : gmap Z UserRow;
  groups : gmap Z UserGroup;
  memberships : gset (Z * Z);       (* MembershipEdge: (group id, user id) *)
  subgroup_edges : gset (Z * Z);    (* SubgroupEdge: (supergroup id, subgroup id) *)
  next_group_id : Z                 (* the id sequence of the group table *)
}.

Definition set_groups (f : gmap Z UserGroup → gmap Z UserGroup) (s : Store) : Store :=
  mkStore (users s) (f (groups s)) (memberships s) (subgroup_edges s) (next_group_id s).
Definition set_memberships (f : gset (Z * Z) → gset (Z * Z)) (s : Store) : Store :=
  mkStore (users s) (groups s) (f (memberships s)) (subgroup_edges s) (next_group_id s).
Definition set_subgroup_edges (f : gset (Z * Z) → gset (Z * Z)) (s : Store) : Store :=
  mkStore (users s) (groups s) (memberships s) (f (subgroup_edges s)) (next_group_id s).

Definition is_named (s : Store) (gid : Z) : bool :=
  match groups s !! gid with
  | Some g => bool_decide (is_Some (group_name g))
  | None => false
  end.

(** ** The subgroup graph *)

Module Graph.

Definition edges : Type := gset (Z * Z).

Definition edge (E : edges) (a b : Z) : Prop := (a, b) ∈ E.

(** Targets of the edges leaving a set of nodes. *)
Definition successors (E : edges) (X : gset Z) : gset Z :=
  set_map snd (filter (λ e, e.1 ∈ X) E).

Definition direct_subgroup_ids (E : edges) (g : Z) : gset Z :=
  successors E {[g]}.

Definition expand (E : edges) (X : gset Z) : gset Z := X ∪ successors E X.

(** The groups that are a direct subgroup of something. *)
Definition targets (E : edges) : gset Z := set_map snd E.

(** The recursive query: start from the given rows and follow subgroup
    edges until nothing new is found. *)
Fixpoint saturate (fuel : nat) (E : edges) (X : gset Z) : gset Z :=
  match fuel with
  | O => X
  | S fuel' =>
      let X' := expand E X in
      if decide (X' ⊆ X) then X else saturate fuel' E X'
  end.

(** Each round that does not stop adds a target of some edge, so [size E]
    rounds are enough. *)
Definition recursive_subgroup_ids (E : edges) (X : gset Z) : gset Z :=
  saturate (size E) E X.

Definition acyclic (E : edges) : Prop := ∀ g, ¬ tc (edge E) g g.

(** [y] is one of the groups [X] or a recursive subgroup of one of them. *)
Definition below (E : edges) (X : gset Z) (y : Z) : Prop :=
  ∃ x, x ∈ X ∧ rtc (edge E) x y.

(** The subgroup relation between named groups only. *)
Definition restrict (keep : Z → bool) (E : edges) : edges :=
  filter (λ e, keep e.1 = true ∧ keep e.2 = true) E.

End Graph.

(** ** Effects: a store, a log and exceptions *)

(** The text of a notification message. *)
Inductive Notice : Type := AddedYou | RemovedYou.

(** What a view does besides changing rows: the rows it locks, the lookups it
    makes, the settings it resolves and the messages it sends. *)
Inductive Event : Type :=
| Locked (rows : gset Z)
| ReadGroup (group_id : Z)
| ReadUsers (user_ids : list Z)
| ReadMembers (group_id : Z)
| ResolvedSetting (value : SettingValue.t)
| Sent (notifications : list (Z * option Notice)).

Record World : Type := mkWorld {
  store : Store;
  log : list Event
}.

Inductive Result (A : Type) : Type :=
| Ok (a : A)
| Raised (e : JsonableError).
Arguments Ok {A} a.
Arguments Raised {A} e.

Definition M (A : Type) : Type := World → Result A * World.

Definition ret {A} (a : A) : M A := λ w, (Ok a, w).

Definition bind {A B} (m : M A) (k : A → M B) : M B :=
  λ w, match m w with
       | (Ok a, w') => k a w'
       | (Raised e, w') => (Raised e, w')
       end.

Definition raise {A} (e : JsonableError) : M A := λ w, (Raised e, w).

Definition emit (ev : Event) : M unit :=
  λ w, (Ok tt, mkWorld (store w) (log w ++ [ev])).

Definition query : M Store := λ w, (Ok (store w), w).

Definition update (f : Store → Store) : M unit :=
  λ w, (Ok tt, mkWorld (f (store w)) (log w)).

Notation "'do' x <- m ; k" := (bind m (λ x, k))
  (at level 10, x name, m at level 100, k at level 200).
Notation "m ;; k" := (bind m (λ _, k))
  (at level 100, k at level 200, right associativity).

(** [transaction.atomic]: when the body raises, the rows are as they were
    when the block was entered, and the exception goes on. *)
Definition atomic {A} (m : M A) : M A :=
  λ w, match m w with
       | (Ok a, w') => (Ok a, w')
       | (Raised e, w') => (Raised e, mkWorld (store w) (log w'))
       end.

(** A [for] loop whose body may raise. *)
Fixpoint for_each {A} (xs : list A) (body : A → M unit) : M unit :=
  match xs with
  | [] => ret tt
  | x :: rest => body x ;; for_each rest body
  end.

(** ** Collaborators outside the group views *)

(** Behaviour the views receive from modules that this development does not
    look into: name validation, the permission table and its checks, and the
    rule for whether a group may be deleted. *)
Class Collaborators : Type := {
  PermissionConfig : Type;
  (** [NamedUserGroup.GROUP_PERMISSION_SETTINGS.items()] *)
  GROUP_PERMISSION_SETTINGS : list (string * PermissionConfig);
  (** [check_user_group_name]: the cleaned name, or [None] when it is rejected *)
  clean_user_group_name : string → option string;
  (** may this user point the setting at this group *)
  setting_group_permitted : PermissionConfig → UserProfile → Store → Z → bool;
  (** the group a setting points at when the request leaves it out *)
  default_setting_group : Z → Z;
  (** the deletability rule of [check_delete_user_group] *)
  group_deletable : Store → Z → bool
}.

(** ** Helpers imported by the views *)

Section Helpers.
Context {C : Collaborators}.

Definition in_realm (s : Store) (realm gid : Z) : bool :=
  match groups s !! gid with
  | Some g => bool_decide (group_realm g = realm)
  | None => false
  end.

(** Modelled from the spec: [access_user_group_by_id] of
    zerver/lib/user_groups.py is not among the sources.  A mutation fails
    with a not-found error when the group id does not resolve to a named
    group within the caller's realm. *)
Definition access_user_group_by_id (user_group_id : Z) (user_profile : UserProfile) : M Z :=
  emit (ReadGroup user_group_id) ;;
  do s <- query;
  if is_named s user_group_id && in_realm s (user_realm user_profile) user_group_id
  then ret user_group_id
  else raise InvalidUserGroup.

Definition known_user (s : Store) (realm uid : Z) : option UserProfile :=
  match users s !! uid with
  | Some row =>
      if bool_decide (row_realm row = realm)
      then Some (mkUser uid (row_realm row) (row_is_bot row) (row_is_active row))
      else None
  | None => None
  end.

Fixpoint resolve_users (s : Store) (realm : Z) (ids : list Z) : Result (list UserProfile) :=
  match ids with
  | [] => Ok []
  | uid :: rest =>
      match known_user s realm uid with
      | None => Raised (InvalidUserId uid)
      | Some u =>
          match resolve_users s realm rest with
          | Ok us => Ok (u :: us)
          | Raised e => Raised e
          end
      end
  end.

(** Modelled from the spec: [user_ids_to_users] of zerver/lib/users.py is
    not among the sources.  It is the user-existence and realm-scoping
    lookup: every id must resolve to a user of the realm, and the rows come
    back once each. *)
Definition user_ids_to_users (user_ids : list Z) (realm : Z) : M (list UserProfile) :=
  emit (ReadUsers user_ids) ;;
  do s <- query;
  match resolve_users s realm (remove_dups user_ids) with
  | Ok us => ret us
  | Raised e => raise e
  end.

Definition direct_member_ids (s : Store) (gid : Z) : gset Z :=
  set_map snd (filter (λ e, e.1 = gid) (memberships s)).

(** Modelled from the spec: [get_user_group_direct_member_ids]
    (directMemberIds of the store). *)
Definition get_user_group_direct_member_ids (user_group : Z) : M (gset Z) :=
  emit (ReadMembers user_group) ;;
  do s <- query;
  ret (direct_member_ids s user_group).

(** Modelled from the spec: [get_direct_memberships_of_users]: the ids,
    among the given users, of the direct members of the group. *)
Definition get_direct_memberships_of_users
    (user_group : Z) (members : list UserProfile) : M (list Z) :=
  emit (ReadMembers user_group) ;;
  do s <- query;
  ret (filter (λ uid, uid ∈ direct_member_ids s user_group) (user_id <$> members)).

Definition edges_from (gid : Z) (targets : list Z) : gset (Z * Z) :=
  list_to_set ((λ t, (gid, t)) <$> targets).

(** Modelled from the spec: [bulk_add_members_to_user_groups]
    (addMembers of the store), for every group of the list. *)
Definition bulk_add_members_to_user_groups
    (user_groups : list Z) (user_ids : list Z) : M unit :=
  for_each user_groups (λ g,
    update (set_memberships (λ m, m ∪ edges_from g user_ids))).

(** Modelled from the spec: [bulk_remove_members_from_user_groups]
    (removeMembers of the store). *)
Definition bulk_remove_members_from_user_groups
    (user_groups : list Z) (user_ids : list Z) : M unit :=
  for_each user_groups (λ g,
    update (set_memberships (λ m, m ∖ edges_from g user_ids))).

(** Modelled from the spec: [add_subgroups_to_user_group] (addSubgroups of
    the store). *)
Definition add_subgroups_to_user_group (supergroup : Z) (subgroups : list Z) : M unit :=
  update (set_subgroup_edges (λ E, E ∪ edges_from supergroup subgroups)).

(** Modelled from the spec: [remove_subgroups_from_user_group]
    (removeSubgroups of the store). *)
Definition remove_subgroups_from_user_group (supergroup : Z) (subgroups : list Z) : M unit :=
  update (set_subgroup_edges (λ E, E ∖ edges_from supergroup subgroups)).

(** What the lock helper yields. *)
Record LockedUserGroupContext : Type := mkContext {
  supergroup : Z;
  direct_subgroups : list Z;
  recursive_subgroups : gset Z
}.

(** Modelled from the spec: [lock_subgroups_with_respect_to_supergroup] of
    zerver/lib/user_groups.py is not among the sources.  The candidate
    subgroups that resolve in the realm, and everything below them, are
    read and locked together with the supergroup; a candidate id that does
    not resolve is a not-found error; the block runs in a transaction.  The
    recursive subgroups are those of the passed subgroups, these included:
    the view's message for a hit reads "already a subgroup of one of the
    passed subgroups", and its deletion path says that locking [gid] for
    itself locks "the user group's recursive subgroups and the user group
    itself". *)
Definition lock_subgroups_with_respect_to_supergroup {A}
    (potential_subgroup_ids : list Z) (potential_supergroup_id : Z)
    (acting_user : UserProfile) (block : LockedUserGroupContext → M A) : M A :=
  atomic (
    do s <- query;
    let found :=
      filter (λ g, in_realm s (user_realm acting_user) g = true)
             (remove_dups potential_subgroup_ids) in
    let recursive :=
      Graph.recursive_subgroup_ids (subgroup_edges s) (list_to_set found) in
    emit (Locked (recursive ∪ {[potential_supergroup_id]})) ;;
    do potential_supergroup <- access_user_group_by_id potential_supergroup_id acting_user;
    match filter (λ g, g ∉ found) potential_subgroup_ids with
    | missing :: _ => raise (InvalidUserGroupId missing)
    | [] => block (mkContext potential_supergroup found recursive)
    end).

Definition name_taken (s : Store) (realm : Z) (name : string) : bool :=
  bool_decide (∃ gid g, groups s !! gid = Some g
                        ∧ group_realm g = realm ∧ group_name g = Some name).

(** Modelled from the spec: [check_user_group_name]; an invalid name is a
    validation error. *)
Definition check_user_group_name (name : string) : M string :=
  match clean_user_group_name name with
  | Some cleaned => ret cleaned
  | None => raise InvalidGroupName
  end.

Definition insert_group (gid : Z) (g : UserGroup) (s : Store) : Store :=
  mkStore (users s) (<[gid := g]> (groups s)) (memberships s) (subgroup_edges s)
          (next_group_id s + 1).

(** Modelled from the spec: [check_add_user_group] (createGroup of the
    store): a duplicate name in the realm is a validation error; the new
    row takes the next id, the given members and no subgroups. *)
Definition check_add_user_group (realm : Z) (name : string) (initial : list UserProfile)
    (description : string) (group_settings_map : gmap string Z) : M Z :=
  do s <- query;
  if name_taken s realm name then raise GroupNameTaken else
  let gid := next_group_id s in
  let setting := default (default_setting_group realm)
                         (group_settings_map !! "can_mention_group"%string) in
  update (insert_group gid (mkGroup realm (Some name) description setting)) ;;
  update (set_memberships (λ m, m ∪ edges_from gid (user_id <$> initial))) ;;
  ret gid.

Definition drop_group (gid : Z) (s : Store) : Store :=
  mkStore (users s) (delete gid (groups s))
          (filter (λ e, e.1 ≠ gid) (memberships s))
          (filter (λ e, e.1 ≠ gid ∧ e.2 ≠ gid) (subgroup_edges s))
          (next_group_id s).

(** Modelled from the spec: [check_delete_user_group]: the deletability
    rule is asked, then the row goes, with its membership rows and the
    subgroup rows on either side of it. *)
Definition check_delete_user_group (user_group : Z) : M unit :=
  do s <- query;
  if group_deletable s user_group
  then update (drop_group user_group)
  else raise GroupNotDeletable.

Definition alter_group (f : UserGroup → UserGroup) (gid : Z) : M unit :=
  update (set_groups (alter f gid)).

(** Modelled from the spec: [do_update_user_group_name]; names are unique
    within a realm. *)
Definition do_update_user_group_name (user_group : Z) (name : string) : M unit :=
  do s <- query;
  match groups s !! user_group with
  | None => raise InvalidUserGroup
  | Some g =>
      if name_taken s (group_realm g) name then raise GroupNameTaken
      else alter_group (λ g, mkGroup (group_realm g) (Some name)
                                     (group_description g) (can_mention_group g))
                       user_group
  end.

(** Modelled from the spec: [do_update_user_group_description]. *)
Definition do_update_user_group_description (user_group : Z) (description : string) : M unit :=
  alter_group (λ g, mkGroup (group_realm g) (group_name g)
                            description (can_mention_group g))
              user_group.

(** Modelled from the spec: [do_change_user_group_permission_setting]:
    [setattr(user_group, setting_name, value)].  The row has the one
    setting column [can_mention_group]. *)
Definition do_change_user_group_permission_setting
    (user_group : Z) (setting_name : string) (setting_value_group : Z) : M unit :=
  if bool_decide (setting_name = "can_mention_group"%string)
  then alter_group (λ g, mkGroup (group_realm g) (group_name g)
                                 (group_description g) setting_value_group)
                   user_group
  else ret tt.

(** Modelled from the spec: [get_group_setting_value_for_api]: a named
    group is its id, an anonymous group is its members and subgroups. *)
Definition get_group_setting_value_for_api (s : Store) (setting_value_group : Z)
    : SettingValue.t :=
  match groups s !! setting_value_group with
  | Some (mkGroup _ None _ _) =>
      Anonymous (mkAnon (elements (direct_member_ids s setting_value_group))
                        (elements (Graph.direct_subgroup_ids (subgroup_edges s)
                                                             setting_value_group)))
  | _ => GroupId setting_value_group
  end.

(** Modelled from the spec: [access_user_group_for_setting] (the setting
    value resolver).  A plain id must resolve in the realm and be permitted
    for the acting user, and is returned as it is; a member/subgroup spec
    becomes a new anonymous group with those members and subgroups. *)
Definition access_user_group_for_setting
    (setting_user_group : SettingValue.t) (user_profile : UserProfile)
    (permission_configuration : PermissionConfig) : M Z :=
  emit (ResolvedSetting setting_user_group) ;;
  do s <- query;
  let realm := user_realm user_profile in
  match setting_user_group with
  | GroupId gid =>
      if negb (in_realm s realm gid) then raise InvalidUserGroup
      else if negb (setting_group_permitted permission_configuration user_profile s gid)
      then raise SettingGroupNotPermitted
      else ret gid
  | Anonymous spec =>
      do member_users <- user_ids_to_users (SettingValue.direct_members spec) realm;
      match filter (λ g, in_realm s realm g = false) (SettingValue.direct_subgroups spec) with
      | missing :: _ => raise (InvalidUserGroupId missing)
      | [] =>
          let gid := next_group_id s in
          update (insert_group gid (mkGroup realm None EmptyString (default_setting_group realm))) ;;
          update (set_memberships (λ m, m ∪ edges_from gid (user_id <$> member_users))) ;;
          update (set_subgroup_edges
                    (λ E, E ∪ edges_from gid (SettingValue.direct_subgroups spec))) ;;
          ret gid
      end
  end.

End Helpers.

(** ** The views of zerver/views/user_groups.py

    The decorators that parse the request and check the caller's right to
    edit groups run before a view's body and are not part of it; a view is
    modelled from its body, and its JSON response as [unit]. *)

Section Views.
Context {C : Collaborators}.

(** [check_setting_value_changed]; the current value is a group row. *)
Definition check_setting_value_changed (s : Store) (current_value : Z)
    (new_setting_value : SettingValue.t) : bool :=
  let current_setting_api_value := get_group_setting_value_for_api s current_value in
  negb (are_both_setting_values_equal current_setting_api_value new_setting_value).

(** [locals()] seen as a map from setting names: of the names in the
    permission table, the views have the one argument [can_mention_group]. *)
Definition request_settings_dict (can_mention_group : option SettingValue.raw)
    (setting_name : string) : option (option SettingValue.raw) :=
  if bool_decide (setting_name = "can_mention_group"%string)
  then Some can_mention_group
  else None.

(** [getattr(user_group, setting_name)] *)
Definition getattr_setting (s : Store) (user_group : Z) : Z :=
  match groups s !! user_group with
  | Some g => can_mention_group g
  | None => user_group
  end.

(** The body of the settings loop of [add_user_group]. *)
Definition add_user_group_setting (user_profile : UserProfile)
    (can_mention_group : option SettingValue.raw)
    (group_settings_map : gmap string Z)
    (item : string * PermissionConfig) : M (gmap string Z) :=
  let '(setting_name, permission_config) := item in
  match request_settings_dict can_mention_group setting_name with
  | None => ret group_settings_map
  | Some None => ret group_settings_map
  | Some (Some raw_value) =>
      let setting_value := parse_group_setting_value raw_value in
      do setting_value_group <-
        access_user_group_for_setting setting_value user_profile permission_config;
      ret (<[setting_name := setting_value_group]> group_settings_map)
  end.

Fixpoint add_user_group_settings (user_profile : UserProfile)
    (can_mention_group : option SettingValue.raw)
    (items : list (string * PermissionConfig))
    (group_settings_map : gmap string Z) : M (gmap string Z) :=
  match items with
  | [] => ret group_settings_map
  | item :: rest =>
      do m <- add_user_group_setting user_profile can_mention_group group_settings_map item;
      add_user_group_settings user_profile can_mention_group rest m
  end.

(** [add_user_group] *)
Definition add_user_group (user_profile : UserProfile) (name : string)
    (members : list Z) (description : string)
    (can_mention_group : option SettingValue.raw) : M unit :=
  do user_profiles <- user_ids_to_users members (user_realm user_profile);
  do name <- check_user_group_name name;
  do group_settings_map <-
    add_user_group_settings user_profile can_mention_group GROUP_PERMISSION_SETTINGS ∅;
  do _ <- check_add_user_group (user_realm user_profile) name user_profiles description
                               group_settings_map;
  ret tt.

(** The body of the settings loop of [edit_user_group]. *)
Definition edit_user_group_setting (user_profile : UserProfile) (user_group : Z)
    (can_mention_group : option SettingValue.raw)
    (item : string * PermissionConfig) : M unit :=
  let '(setting_name, permission_config) := item in
  match request_settings_dict can_mention_group setting_name with
  | None => ret tt
  | Some None => ret tt
  | Some (Some raw_value) =>
      do s <- query;
      let current_value := getattr_setting s user_group in
      let new_setting_value := parse_group_setting_value raw_value in
      if check_setting_value_changed s current_value new_setting_value
      then
        do setting_value_group <-
          access_user_group_for_setting new_setting_value user_profile permission_config;
        do_change_user_group_permission_setting user_group setting_name setting_value_group
      else ret tt
  end.

Definition group_row (s : Store) (gid : Z) : UserGroup :=
  default (mkGroup 0 None EmptyString 0) (groups s !! gid).

(** [edit_user_group] *)
Definition edit_user_group (user_profile : UserProfile) (user_group_id : Z)
    (name description : option string)
    (can_mention_group : option SettingValue.raw) : M unit :=
  atomic (
    if bool_decide (name = None) && bool_decide (description = None)
       && bool_decide (can_mention_group = None)
    then raise NoNewDataSupplied
    else
      do user_group <- access_user_group_by_id user_group_id user_profile;
      do s <- query;
      (match name with
       | Some new_name =>
           if bool_decide (Some new_name ≠ group_name (group_row s user_group))
           then do cleaned <- check_user_group_name new_name;
                do_update_user_group_name user_group cleaned
           else ret tt
       | None => ret tt
       end) ;;
      (match description with
       | Some new_description =>
           if bool_decide (new_description ≠ group_description (group_row s user_group))
           then do_update_user_group_description user_group new_description
           else ret tt
       | None => ret tt
       end) ;;
      for_each GROUP_PERMISSION_SETTINGS
               (edit_user_group_setting user_profile user_group can_mention_group)).

(** [delete_user_group] *)
Definition delete_user_group (user_profile : UserProfile) (user_group_id : Z) : M unit :=
  lock_subgroups_with_respect_to_supergroup [user_group_id] user_group_id user_profile
    (λ context, check_delete_user_group (supergroup context)).

(** [notify_for_user_group_subscription_changes].  Every call in the file
    sets exactly one of the two flags.  With neither flag set and a recipient
    that passes the three filters, the source reads [message] before binding
    it and stops with Python's UnboundLocalError, which is no
    [JsonableError]; that case is outside the model, which puts [None] in the
    log there where the source would stop. *)
Definition notify_for_user_group_subscription_changes
    (acting_user : UserProfile) (recipient_users : list UserProfile) (user_group : Z)
    (send_subscription_message send_unsubscription_message : bool) : M unit :=
  let message :=
    if send_unsubscription_message then Some RemovedYou
    else if send_subscription_message then Some AddedYou
    else None in
  let notifications :=
    (λ u, (user_id u, message)) <$>
    filter (λ u, user_id u ≠ user_id acting_user ∧ is_bot u = false ∧ is_active u = true)
           recipient_users in
  if bool_decide (0 < length notifications)%nat
  then emit (Sent notifications)
  else ret tt.

(** [add_members_to_group_backend] *)
Definition add_members_to_group_backend (user_profile : UserProfile)
    (user_group_id : Z) (members : list Z) : M unit :=
  atomic (
    if bool_decide (members = []) then ret tt else
    do user_group <- access_user_group_by_id user_group_id user_profile;
    do member_users <- user_ids_to_users members (user_realm user_profile);
    do existing <- get_direct_memberships_of_users user_group member_users;
    let existing_member_ids := py_set existing in
    for_each member_users (λ member_user,
      if bool_decide (user_id member_user ∈ existing_member_ids)
      then raise (AlreadyMember (user_id member_user))
      else ret tt) ;;
    let member_user_ids := user_id <$> member_users in
    bulk_add_members_to_user_groups [user_group] member_user_ids ;;
    notify_for_user_group_subscription_changes user_profile member_users user_group
                                               true false).

(** [remove_members_from_group_backend] *)
Definition remove_members_from_group_backend (user_profile : UserProfile)
    (user_group_id : Z) (members : list Z) : M unit :=
  atomic (
    if bool_decide (members = []) then ret tt else
    do user_profiles <- user_ids_to_users members (user_realm user_profile);
    do user_group <- access_user_group_by_id user_group_id user_profile;
    do group_member_ids <- get_user_group_direct_member_ids user_group;
    for_each members (λ member,
      if bool_decide (member ∉ group_member_ids)
      then raise (NoSuchMember member)
      else ret tt) ;;
    let user_profile_ids := user_id <$> user_profiles in
    bulk_remove_members_from_user_groups [user_group] user_profile_ids ;;
    notify_for_user_group_subscription_changes user_profile user_profiles user_group
                                               false true).

(** [context.supergroup.direct_subgroups.all().values_list("id", flat=True)] *)
Definition existing_direct_subgroup_ids (context : LockedUserGroupContext) : M (gset Z) :=
  do s <- query;
  ret (Graph.direct_subgroup_ids (subgroup_edges s) (supergroup context)).

(** [add_subgroups_to_group_backend] *)
Definition add_subgroups_to_group_backend (user_profile : UserProfile)
    (user_group_id : Z) (subgroup_ids : list Z) : M unit :=
  if bool_decide (subgroup_ids = []) then ret tt else
  lock_subgroups_with_respect_to_supergroup subgroup_ids user_group_id user_profile
    (λ context,
      do existing <- existing_direct_subgroup_ids context;
      for_each (direct_subgroups context) (λ group,
        if bool_decide (group ∈ existing)
        then raise (AlreadySubgroup group)
        else ret tt) ;;
      let recursive_subgroup_ids := recursive_subgroups context in
      if bool_decide (user_group_id ∈ recursive_subgroup_ids)
      then raise (AlreadySubgroupOfPassed user_group_id)
      else add_subgroups_to_user_group (supergroup context) (direct_subgroups context)).

(** [remove_subgroups_from_group_backend] *)
Definition remove_subgroups_from_group_backend (user_profile : UserProfile)
    (user_group_id : Z) (subgroup_ids : list Z) : M unit :=
  if bool_decide (subgroup_ids = []) then ret tt else
  lock_subgroups_with_respect_to_supergroup subgroup_ids user_group_id user_profile
    (λ context,
      do existing <- existing_direct_subgroup_ids context;
      for_each (direct_subgroups context) (λ group,
        if bool_decide (group ∉ existing)
        then raise (NotSubgroup group)
        else ret tt) ;;
      remove_subgroups_from_user_group (supergroup context) (direct_subgroups context)).

(** Modelled from the spec: [compose_views] of zerver/views/streams.py is
    not among the sources.  What the spec gives is the transaction: each
    mutation is all-or-nothing, and an error in any part undoes every write of
    the request.  The spec does not say in which order the thunks are called;
    calling them from first to last is an assumption of this model, taken
    from the order in which the two update views build their list. *)
Definition compose_views (thunks : list (M unit)) : M unit :=
  atomic (for_each thunks (λ thunk, thunk)).

(** [update_user_group_backend] *)
Definition update_user_group_backend (user_profile : UserProfile)
    (user_group_id : Z) (delete add : list Z) : M unit :=
  if bool_decide (add = []) && bool_decide (delete = [])
  then raise NothingToDo
  else
    let thunks := [
      add_members_to_group_backend user_profile user_group_id add;
      remove_members_from_group_backend user_profile user_group_id delete
    ] in
    compose_views thunks.

(** [update_subgroups_of_user_group] *)
Definition update_subgroups_of_user_group (user_profile : UserProfile)
    (user_group_id : Z) (delete add : list Z) : M unit :=
  if bool_decide (add = []) && bool_decide (delete = [])
  then raise NothingToDo
  else
    let thunks := [
      add_subgroups_to_group_backend user_profile user_group_id add;
      remove_subgroups_from_group_backend user_profile user_group_id delete
    ] in
    compose_views thunks.

End Views.

(** ** The group service as a transition system *)

Section Service.
Context {C : Collaborators}.

(** The mutation requests of the service; the last four are the single
    list operations the two update views are composed of. *)
Inductive Request : Type :=
| CreateGroup (name : string) (members : list Z) (description : string)
              (can_mention_group : option SettingValue.raw)
| UpdateGroup (group_id : Z) (name description : option string)
              (can_mention_group : option SettingValue.raw)
| DeleteGroup (group_id : Z)
| UpdateMembers (group_id : Z) (delete add : list Z)
| UpdateSubgroups (group_id : Z) (delete add : list Z)
| AddMembers (group_id : Z) (user_ids : list Z)
| RemoveMembers (group_id : Z) (user_ids : list Z)
| AddSubgroups (group_id : Z) (subgroup_ids : list Z)
| RemoveSubgroups (group_id : Z) (subgroup_ids : list Z).

Definition handle (user_profile : UserProfile) (request : Request) : M unit :=
  match request with
  | CreateGroup name members description setting =>
      add_user_group user_profile name members description setting
  | UpdateGroup gid name description setting =>
      edit_user_group user_profile gid name description setting
  | DeleteGroup gid => delete_user_group user_profile gid
  | UpdateMembers gid delete add => update_user_group_backend user_profile gid delete add
  | UpdateSubgroups gid delete add =>
      update_subgroups_of_user_group user_profile gid delete add
  | AddMembers gid ids => add_members_to_group_backend user_profile gid ids
  | RemoveMembers gid ids => remove_members_from_group_backend user_profile gid ids
  | AddSubgroups gid ids => add_subgroups_to_group_backend user_profile gid ids
  | RemoveSubgroups gid ids => remove_subgroups_from_group_backend user_profile gid ids
  end.

Definition empty_store (user_table : gmap Z UserRow) (first_id : Z) : Store :=
  mkStore user_table ∅ ∅ ∅ first_id.

(** The worlds the service can be in: it starts without groups, and every
    request, served or refused, leads to the next world. *)
Inductive reachable : World → Prop :=
| reachable_start user_table first_id :
    reachable (mkWorld (empty_store user_table first_id) [])
| reachable_request w user_profile request :
    reachable w → reachable (snd (handle user_profile request w)).

(** What holds of the rows in every reachable world. *)
Record consistent (s : Store) : Prop := mkConsistent {
  ids_from_sequence : ∀ gid, gid ∈ dom (groups s) → gid < next_group_id s;
  subgroups_exist : ∀ a b, (a, b) ∈ subgroup_edges s → b ∈ dom (groups s);
  no_cycle : Graph.acyclic (subgroup_edges s)
}.

(** What a setting value is read from: the setting column, the realm and
    whether the row is anonymous. *)
Definition setting_view (g : UserGroup) : Z * Z * bool :=
  (can_mention_group g, group_realm g, bool_decide (group_name g = None)).

(** [s'] has the groups of [s], with the same edges and the same settings;
    names and descriptions of named groups may differ. *)
Definition settings_untouched (s s' : Store) : Prop :=
  users s' = users s
  ∧ memberships s' = memberships s
  ∧ subgroup_edges s' = subgroup_edges s
  ∧ next_group_id s' = next_group_id s
  ∧ ∀ gid, setting_view <$> (groups s' !! gid) = setting_view <$> (groups s !! gid).

(** A specification of a computation by what it needs of the rows and what
    it leaves. *)
Definition hoare {A} (P : Store → Prop) (m : M A) (Q : Result A → Store → Prop) : Prop :=
  ∀ w, P (store w) → Q (fst (m w)) (store (snd (m w))).

(** A computation that keeps the rows consistent, however it ends. *)
Definition preserves {A} (m : M A) : Prop :=
  hoare consistent m (λ _ s, consistent s).

End Service.

(** ** A small realm to run the views on *)

Module Sample.

#[export] Instance collaborators : Collaborators := {|
  PermissionConfig := unit;
  GROUP_PERMISSION_SETTINGS := [("can_mention_group"%string, tt)];
  clean_user_group_name := λ n, if bool_decide (n = EmptyString) then None else Some n;
  setting_group_permitted := λ _ _ _ _, true;
  default_setting_group := λ _, 0;
  group_deletable := λ _ _, true
|}.

Definition realm : Z := 10.
Definition alice : UserProfile := mkUser 1 realm false true.
Definition user_table : gmap Z UserRow :=
  {[ 1 := mkUserRow realm false true; 2 := mkUserRow realm false true ]}.

Definition start : World := mkWorld (empty_store user_table 100) [].

(** "eng" (id 100) with members 1 and 2, "leads" (id 101) with member 1. *)
Definition with_eng : World :=
  snd (handle alice (CreateGroup "eng" [1; 2] "engineering" None) start).
Definition with_leads : World :=
  snd (handle alice (CreateGroup "leads" [1] "team leads" None) with_eng).
(** "leads" made a subgroup of "eng". *)
Definition nested : World :=
  snd (handle alice (AddSubgroups 100 [101]) with_leads).
(** "leads" may be mentioned by users 1 and 2 and by the members of "eng":
    an anonymous group (id 102) holds the setting. *)
Definition with_setting : World :=
  snd (handle alice (UpdateGroup 101 None None (Some (RawDict [1; 2] [100]))) with_leads).

End Sample.

(** ** Reading the log *)

(** The log holds a message with this text for this user. *)
Definition notified (l : list Event) (uid : Z) (notice : option Notice) : Prop :=
  ∃ ns, Sent ns ∈ l ∧ (uid, notice) ∈ ns.

(** A user who gets a message about a change somebody else made: a human,
    active account other than the acting user. *)
Definition notifiable (s : Store) (acting : UserProfile) (uid : Z) : Prop :=
  uid ≠ user_id acting
  ∧ ∃ row, users s !! uid = Some row ∧ row_is_bot row = false ∧ row_is_active row = true.

(** * Properties *)

(** ** Setting values *)

Section SettingValueFacts.

Lemma py_set_elem (xs : list Z) (x : Z) : x ∈ py_set xs ↔ x ∈ xs.
Proof. unfold py_set. apply elem_of_list_to_set. Qed.

Lemma py_set_eq_iff (xs ys : list Z) :
  py_set xs = py_set ys ↔ ∀ x, x ∈ xs ↔ x ∈ ys.
Proof.
  split.
  - intros Heq x. rewrite <- !py_set_elem. by rewrite Heq.
  - intros Hsame. apply set_eq. intros x. rewrite !py_set_elem. apply Hsame.
Qed.

Lemma are_both_equal_sym (X Y : SettingValue.t) :
  are_both_setting_values_equal X Y = are_both_setting_values_equal Y X.
Proof.
  destruct X as [a|a], Y as [b|b]; simpl; try reflexivity.
  - apply bool_decide_ext. split; intros; by subst.
  - f_equal; apply bool_decide_ext; split; intros Heq; by rewrite Heq.
Qed.

Lemma are_both_equal_refl (X : SettingValue.t) :
  are_both_setting_values_equal X X = true.
Proof.
  destruct X as [a|a]; simpl.
  - by apply bool_decide_eq_true.
  - apply andb_true_iff. split; by apply bool_decide_eq_true.
Qed.

Lemma anonymous_equal_iff (a b : AnonymousSettingGroupDict) :
  are_both_setting_values_equal (Anonymous a) (Anonymous b) = true
  ↔ py_set (SettingValue.direct_members a) = py_set (SettingValue.direct_members b)
    ∧ py_set (SettingValue.direct_subgroups a) = py_set (SettingValue.direct_subgroups b).
Proof. simpl. rewrite andb_true_iff, !bool_decide_eq_true. reflexivity. Qed.

End SettingValueFacts.

Example parse_int : parse_group_setting_value (RawInt 7) = GroupId 7.
Proof. reflexivity. Qed.

Example parse_single : parse_group_setting_value (RawDict [] [12]) = GroupId 12.
Proof. reflexivity. Qed.

Example parse_pair :
  parse_group_setting_value (RawDict [] [12; 13]) = Anonymous (mkAnon [] [12; 13]).
Proof. reflexivity. Qed.

Example parse_member_and_group :
  parse_group_setting_value (RawDict [4] [12]) = Anonymous (mkAnon [4] [12]).
Proof. reflexivity. Qed.

Example equal_up_to_order :
  are_both_setting_values_equal
    (Anonymous (mkAnon [1; 2; 2] [5; 6])) (Anonymous (mkAnon [2; 1] [6; 5; 5])) = true.
Proof. vm_compute. reflexivity. Qed.

Example int_vs_dict :
  are_both_setting_values_equal (GroupId 5) (Anonymous (mkAnon [] [5])) = false.
Proof. reflexivity. Qed.

Example closure_chain :
  Graph.recursive_subgroup_ids {[ (1, 2); (2, 3); (4, 1) ]} {[ 1 ]} = {[ 1; 2; 3 ]}.
Proof. vm_compute. reflexivity. Qed.

(** C3.  A raw value with no members and exactly one subgroup [g] parses to
    the plain group id [g]; resolving the parsed value leaves every row of the
    store as it was (no group is created) and, when it succeeds, returns [g]
    itself. *)
Theorem parse_single_subgroup_is_direct_reference {C : Collaborators} (g : Z) :
  parse_group_setting_value (RawDict [] [g]) = GroupId g
  ∧ ∀ (user_profile : UserProfile) (cfg : PermissionConfig) (w : World),
      let out := access_user_group_for_setting
                   (parse_group_setting_value (RawDict [] [g])) user_profile cfg w in
      store (snd out) = store w
      ∧ (∀ gid, fst out = Ok gid → gid = g).
Proof.
  assert (parse_group_setting_value (RawDict [] [g]) = GroupId g) as Hparse
    by reflexivity.
  split; [exact Hparse|].
  intros user_profile cfg w. rewrite Hparse.
  unfold access_user_group_for_setting, bind, emit, query, raise, ret; cbn.
  destruct (negb (in_realm _ _ _)); cbn; [split; [done | intros ? [=]]|].
  destruct (negb (setting_group_permitted _ _ _ _)); cbn.
  - split; [done | intros ? [=]].
  - split; [done | by intros ? [= <-]].
Qed.

(** C4.  The changed-check is irreflexive ([settingChanged X X] is false) and
    symmetric; two anonymous specs compare equal exactly when they have the
    same member ids and the same subgroup ids as sets, so the order and the
    repetition of the list elements do not matter. *)
Theorem settingChanged_reflexive_symmetric_setwise :
  (∀ X, settingChanged X X = false)
  ∧ (∀ X Y, settingChanged X Y = settingChanged Y X)
  ∧ (∀ a b : AnonymousSettingGroupDict,
       settingChanged (Anonymous a) (Anonymous b) = false
       ↔ (∀ x, x ∈ SettingValue.direct_members a ↔ x ∈ SettingValue.direct_members b)
         ∧ (∀ x, x ∈ SettingValue.direct_subgroups a ↔ x ∈ SettingValue.direct_subgroups b))
  ∧ (∀ (m m' s s' : list Z) (Y : SettingValue.t),
       m ≡ₚ m' → s ≡ₚ s' →
       settingChanged (Anonymous (mkAnon m s)) Y = settingChanged (Anonymous (mkAnon m' s')) Y).
Proof.
  unfold settingChanged. split; [|split; [|split]].
  - intros X. by rewrite are_both_equal_refl.
  - intros X Y. by rewrite are_both_equal_sym.
  - intros a b. rewrite negb_false_iff, anonymous_equal_iff, !py_set_eq_iff.
    reflexivity.
  - intros m m' s s' Y Hm Hs. f_equal.
    destruct Y as [n|b]; [reflexivity|]. simpl.
    assert (py_set m = py_set m') as ->.
    { apply py_set_eq_iff. intros x. by rewrite Hm. }
    assert (py_set s = py_set s') as ->.
    { apply py_set_eq_iff. intros x. by rewrite Hs. }
    reflexivity.
Qed.

(** C9.  A plain group id and an anonymous spec never compare equal, whichever
    comes first and whatever they hold. *)
Theorem int_and_anonymous_never_equal (n : Z) (spec : AnonymousSettingGroupDict) :
  are_both_setting_values_equal (GroupId n) (Anonymous spec) = false
  ∧ are_both_setting_values_equal (Anonymous spec) (GroupId n) = false.
Proof. split; reflexivity. Qed.

(** ** The recursive-subgroup query *)

Section GraphFacts.
Import Graph.
Implicit Types (E : edges) (X : gset Z).
Local Open Scope nat_scope.

Lemma elem_of_successors E X y : y ∈ successors E X ↔ ∃ x, x ∈ X ∧ edge E x y.
Proof.
  unfold successors, edge. rewrite elem_of_map. split.
  - intros [[a b] [-> [Ha Hab]%elem_of_filter]]. simpl in *. eauto.
  - intros (x & Hx & Hxy). exists (x, y). split; [done|].
    apply elem_of_filter. by split.
Qed.

Lemma elem_of_direct_subgroup_ids E g y : y ∈ direct_subgroup_ids E g ↔ (g, y) ∈ E.
Proof.
  unfold direct_subgroup_ids. rewrite elem_of_successors. unfold edge. split.
  - intros (x & ->%elem_of_singleton & H). done.
  - intros H. exists g. split; [by apply elem_of_singleton | done].
Qed.

Lemma saturate_extensive fuel E X : X ⊆ saturate fuel E X.
Proof.
  revert X. induction fuel as [|fuel IH]; intros X; simpl; [done|].
  case_decide; [done|]. etrans; [|apply IH]. unfold expand. set_solver.
Qed.

Lemma saturate_sound fuel E X y : y ∈ saturate fuel E X → below E X y.
Proof.
  revert X. induction fuel as [|fuel IH]; intros X; simpl.
  - intros Hy. exists y. by split.
  - case_decide.
    + intros Hy. exists y. by split.
    + intros (x & Hx & Hxy)%IH. unfold expand in Hx.
      apply elem_of_union in Hx as [Hx | (x0 & Hx0 & Hedge)%elem_of_successors].
      * by exists x.
      * exists x0. split; [done|]. by eapply rtc_l.
Qed.

Lemma successors_targets E X : successors E X ⊆ targets E.
Proof.
  intros y (x & _ & Hxy)%elem_of_successors. unfold targets.
  apply elem_of_map. by exists (x, y).
Qed.

Lemma size_list_to_set_le (l : list Z) : size (list_to_set (C:=gset Z) l) ≤ length l.
Proof.
  induction l as [|x l IH].
  - rewrite list_to_set_nil, size_empty. simpl. lia.
  - rewrite list_to_set_cons, size_union_alt, size_singleton. simpl length.
    assert (size (list_to_set (C:=gset Z) l ∖ {[x]}) ≤ size (list_to_set (C:=gset Z) l))
      as Hle by (apply subseteq_size; set_solver).
    lia.
Qed.

Lemma size_targets E : size (targets E) ≤ size E.
Proof.
  unfold targets, set_map. etrans; [apply size_list_to_set_le|].
  by rewrite length_fmap.
Qed.

Lemma saturate_closed fuel E X :
  size (X ∪ targets E) ≤ size X + fuel →
  successors E (saturate fuel E X) ⊆ saturate fuel E X.
Proof.
  revert X. induction fuel as [|fuel IH]; intros X Hsize; simpl.
  - assert (X = X ∪ targets E) as HX.
    { apply set_subseteq_size_eq; [set_solver | lia]. }
    pose proof (successors_targets E X). set_solver.
  - case_decide as Hstop.
    + unfold expand in Hstop. set_solver.
    + apply IH.
      assert (X ⊂ expand E X) as Hgrow.
      { split; [unfold expand; set_solver | done]. }
      apply subset_size in Hgrow.
      assert (expand E X ∪ targets E = X ∪ targets E) as ->.
      { pose proof (successors_targets E X). unfold expand. set_solver. }
      lia.
Qed.

Lemma recursive_subgroup_ids_closed E X :
  successors E (recursive_subgroup_ids E X) ⊆ recursive_subgroup_ids E X.
Proof.
  apply saturate_closed. rewrite size_union_alt.
  assert (size (targets E ∖ X) ≤ size (targets E)) as Hle
    by (apply subseteq_size; set_solver).
  pose proof (size_targets E). unfold recursive_subgroup_ids. lia.
Qed.

(** The query returns the given groups and exactly what is reachable from
    them along subgroup edges. *)
Lemma recursive_subgroup_ids_spec E X y :
  y ∈ recursive_subgroup_ids E X ↔ below E X y.
Proof.
  split; [apply saturate_sound|].
  intros (x & Hx & Hreach).
  assert (x ∈ recursive_subgroup_ids E X) as Hstart
    by by apply saturate_extensive.
  clear Hx. induction Hreach as [x | x z y Hxz _ IH]; [done|].
  apply IH. apply recursive_subgroup_ids_closed.
  apply elem_of_successors. eauto.
Qed.

Lemma acyclic_subseteq E E' : E' ⊆ E → acyclic E → acyclic E'.
Proof.
  intros Hsub Hacyc g Hcycle. apply (Hacyc g).
  apply (tc_congruence (λ x, x) (edge E)) in Hcycle; [done|].
  intros a b. unfold edge. set_solver.
Qed.

Lemma elem_of_edges_from (p : Z) (cs : list Z) a b :
  (a, b) ∈ edges_from p cs ↔ a = p ∧ b ∈ cs.
Proof.
  unfold edges_from. rewrite elem_of_list_to_set, list_elem_of_fmap. split.
  - intros (c & [= -> ->] & Hc). done.
  - intros [-> Hb]. by exists b.
Qed.

(** Adding edges from [p] to groups from which [p] cannot be reached keeps
    the graph free of cycles. *)
Lemma acyclic_add_edges E (p : Z) (cs : list Z) :
  acyclic E → ¬ below E (list_to_set cs) p → acyclic (E ∪ edges_from p cs).
Proof.
  intros Hacyc Hnot.
  set (E' := E ∪ edges_from p cs).
  assert (∀ a b, edge E' a b → edge E a b ∨ (a = p ∧ b ∈ cs)) as Hsplit.
  { intros a b [H|H%elem_of_edges_from]%elem_of_union; auto. }
  assert (∀ a, rtc (edge E') a p → rtc (edge E) a p) as Hback.
  { apply rtc_ind_l; [done|]. intros a b Hab _ IH.
    destruct (Hsplit _ _ Hab) as [Hold | [-> Hb]].
    - by eapply rtc_l.
    - exfalso. apply Hnot. exists b. split; [by apply elem_of_list_to_set | done]. }
  assert (∀ x y, tc (edge E') x y →
            tc (edge E) x y ∨ ∃ c, c ∈ cs ∧ rtc (edge E') x p ∧ rtc (edge E') c y) as Hcut.
  { intros x y Hxy. induction Hxy as [x y Hedge | x z y Hedge Hzy IH].
    - destruct (Hsplit _ _ Hedge) as [Hold | [-> Hb]].
      + left. by apply tc_once.
      + right. exists y. done.
    - destruct (Hsplit _ _ Hedge) as [Hold | [-> Hb]].
      + destruct IH as [IH | (c & Hc & Hzp & Hcy)].
        * left. by eapply tc_l.
        * right. exists c. split; [done|]. split; [by eapply rtc_l | done].
      + right. exists z. split; [done|]. split; [done | by apply tc_rtc]. }
  intros g Hcycle. destruct (Hcut _ _ Hcycle) as [Hold | (c & Hc & Hgp & Hcg)].
  - by apply (Hacyc g).
  - apply Hnot. exists c. split; [by apply elem_of_list_to_set|].
    apply Hback. by etrans.
Qed.

(** A new source with no incoming edge cannot close a cycle. *)
Lemma acyclic_add_fresh_source E (p : Z) (cs : list Z) :
  acyclic E → p ∉ targets E → p ∉ cs → acyclic (E ∪ edges_from p cs).
Proof.
  intros Hacyc Hfresh Hself. apply acyclic_add_edges; [done|].
  intros (c & Hc%elem_of_list_to_set & Hreach).
  apply rtc_inv_r in Hreach as [-> | (z & _ & Hedge)]; [done|].
  apply Hfresh. unfold targets. apply elem_of_map. by exists (z, p).
Qed.

Lemma acyclic_restrict keep E : acyclic E → acyclic (restrict keep E).
Proof. apply acyclic_subseteq. unfold restrict. set_solver. Qed.

End GraphFacts.

(** ** Running computations *)

Section MonadFacts.
Context {A B : Type}.

Lemma world_eta (w : World) : mkWorld (store w) (log w) = w.
Proof. by destruct w. Qed.

Lemma bind_ok (m : M A) (k : A → M B) w a w' :
  m w = (Ok a, w') → bind m k w = k a w'.
Proof. unfold bind. by intros ->. Qed.

Lemma bind_raised (m : M A) (k : A → M B) w e w' :
  m w = (Raised e, w') → bind m k w = (Raised e, w').
Proof. unfold bind. by intros ->. Qed.

Lemma atomic_raised (m : M A) w e w' :
  m w = (Raised e, w') → atomic m w = (Raised e, mkWorld (store w) (log w')).
Proof. unfold atomic. by intros ->. Qed.

End MonadFacts.

(** A loop that only checks: it stops at the first element that fails the
    check and never writes. *)
Lemma for_each_check {A} (bad : A → bool) (err : A → JsonableError) (xs : list A) w :
  for_each xs (λ x, if bad x then raise (err x) else ret tt) w
  = (match find (λ x, bad x) xs with
     | Some x => Raised (err x)
     | None => Ok tt
     end, w).
Proof.
  induction xs as [|x xs IH]; [done|].
  cbn [for_each find]. unfold bind at 1.
  destruct (bad x) eqn:Hbad; [done|]. apply IH.
Qed.

(** ** Requests that carry nothing *)

(** C8.  With name, description and the permission setting all left out,
    [edit_user_group] raises "No new data supplied", a validation error, and
    the world is exactly as before: no row is changed and nothing is looked
    up. *)
Theorem edit_user_group_without_data_is_rejected {C : Collaborators}
    (user_profile : UserProfile) (user_group_id : Z) (w : World) :
  edit_user_group user_profile user_group_id None None None w
    = (Raised NoNewDataSupplied, w)
  ∧ kind_of NoNewDataSupplied = ValidationError
  ∧ message NoNewDataSupplied = "No new data supplied"%string.
Proof.
  split; [|split; reflexivity].
  unfold edit_user_group. erewrite atomic_raised by reflexivity.
  by rewrite world_eta.
Qed.

(** C5 (amended form).  Each of the four single-list operations, called with an
    empty id list, succeeds and returns the world it was given: no row is
    read or written and no lock is taken, whatever the group id.  The two
    update views, which take an add list and a delete list, refuse a request
    in which both lists are empty with "Nothing to do", a validation error,
    again without touching anything. *)
Theorem empty_id_list_short_circuit
    (user_profile : UserProfile) (user_group_id : Z) (w : World) :
  add_members_to_group_backend user_profile user_group_id [] w = (Ok tt, w)
  ∧ remove_members_from_group_backend user_profile user_group_id [] w = (Ok tt, w)
  ∧ add_subgroups_to_group_backend user_profile user_group_id [] w = (Ok tt, w)
  ∧ remove_subgroups_from_group_backend user_profile user_group_id [] w = (Ok tt, w)
  ∧ update_user_group_backend user_profile user_group_id [] [] w = (Raised NothingToDo, w)
  ∧ update_subgroups_of_user_group user_profile user_group_id [] [] w
      = (Raised NothingToDo, w)
  ∧ kind_of NothingToDo = ValidationError.
Proof. repeat split. Qed.

(** C5, as stated, fails on the update view of the members: with an empty add
    list and an empty delete list the request does not succeed. *)
Lemma empty_add_and_delete_lists_are_refused :
  let out := update_user_group_backend Sample.alice 100 [] [] Sample.with_eng in
  fst out = Raised NothingToDo ∧ fst out ≠ Ok tt.
Proof. split; [reflexivity | discriminate]. Qed.

(** ** What the lookups return *)

Section LookupFacts.

Lemma access_user_group_by_id_run (gid : Z) (u : UserProfile) (w : World) :
  access_user_group_by_id gid u w
  = (if is_named (store w) gid && in_realm (store w) (user_realm u) gid
     then Ok gid else Raised InvalidUserGroup,
     mkWorld (store w) (log w ++ [ReadGroup gid])).
Proof.
  unfold access_user_group_by_id, bind, emit, query. cbn.
  by destruct (is_named _ _ && in_realm _ _ _).
Qed.

Lemma user_ids_to_users_run (ids : list Z) (realm : Z) (w : World) :
  user_ids_to_users ids realm w
  = (resolve_users (store w) realm (remove_dups ids),
     mkWorld (store w) (log w ++ [ReadUsers ids])).
Proof.
  unfold user_ids_to_users, bind, emit, query. cbn.
  by destruct (resolve_users _ _ _).
Qed.

Lemma known_user_id (s : Store) (realm uid : Z) (u : UserProfile) :
  known_user s realm uid = Some u → user_id u = uid.
Proof.
  unfold known_user. destruct (users s !! uid) as [row|]; [|done].
  case_bool_decide; [|done]. by intros [= <-].
Qed.

Lemma resolve_users_ids (s : Store) (realm : Z) (ids : list Z) (us : list UserProfile) :
  resolve_users s realm ids = Ok us → user_id <$> us = ids.
Proof.
  revert us. induction ids as [|uid ids IH]; intros us; simpl.
  - by intros [= <-].
  - destruct (known_user s realm uid) as [u|] eqn:Hu; [|done].
    destruct (resolve_users s realm ids) as [us'|]; [|done].
    intros [= <-]. simpl. f_equal; [by eapply known_user_id | by apply IH].
Qed.

Lemma resolve_users_raised (s : Store) (realm : Z) (ids : list Z) (e : JsonableError) :
  resolve_users s realm ids = Raised e →
  ∃ uid, e = InvalidUserId uid ∧ uid ∈ ids ∧ known_user s realm uid = None.
Proof.
  induction ids as [|uid ids IH]; simpl; [done|].
  destruct (known_user s realm uid) as [u|] eqn:Hu.
  - destruct (resolve_users s realm ids) as [us'|e']; [done|].
    intros [= <-]. destruct IH as (uid' & -> & Hin & Hnone); [done|].
    exists uid'. split; [done|]. split; [by right | done].
  - intros [= <-]. exists uid. split; [done|]. split; [by left | done].
Qed.

Lemma resolve_users_ok_known (s : Store) (realm : Z) (ids : list Z)
    (us : list UserProfile) (uid : Z) :
  resolve_users s realm ids = Ok us → uid ∈ ids → is_Some (known_user s realm uid).
Proof.
  revert us. induction ids as [|x ids IH]; intros us; cbn [resolve_users].
  - by intros _ ?%elem_of_nil.
  - destruct (known_user s realm x) as [u|] eqn:Hx; [|done].
    destruct (resolve_users s realm ids) as [us'|]; [|done].
    intros _ [-> | Hin]%elem_of_cons; [by rewrite Hx | by eapply IH].
Qed.

Lemma elem_of_direct_member_ids (s : Store) (gid uid : Z) :
  uid ∈ direct_member_ids s gid ↔ (gid, uid) ∈ memberships s.
Proof.
  unfold direct_member_ids. rewrite elem_of_map. split.
  - intros [[a b] [-> [Ha Hab]%elem_of_filter]]. simpl in *. by subst.
  - intros Hin. exists (gid, uid). split; [done|]. by apply elem_of_filter.
Qed.

Lemma get_direct_memberships_of_users_run (gid : Z) (us : list UserProfile) (w : World) :
  get_direct_memberships_of_users gid us w
  = (Ok (filter (λ uid, uid ∈ direct_member_ids (store w) gid) (user_id <$> us)),
     mkWorld (store w) (log w ++ [ReadMembers gid])).
Proof. reflexivity. Qed.

End LookupFacts.

(** ** Adding members *)

(** C6 (amended form).  When some id of the list is already a direct member of
    the group, [add_members_to_group_backend] fails and leaves every row as it
    was, so no id of the list is added.  Which error it is follows the order
    of the checks: "Invalid user group", a not-found error, when the group
    does not resolve for the caller; "Invalid user ID", a not-found error,
    for an id of the list that is no user of the realm, when the group
    resolves but some id does not; and the conflict error "already a member"
    for an id of the list that is one, when the group and every id resolve. *)
Theorem add_members_with_existing_member_fails
    (user_profile : UserProfile) (user_group_id : Z) (members : list Z) (w : World) :
  (∃ uid, uid ∈ members ∧ (user_group_id, uid) ∈ memberships (store w)) →
  let realm := user_realm user_profile in
  let group_resolves :=
    is_named (store w) user_group_id && in_realm (store w) realm user_group_id in
  let out := add_members_to_group_backend user_profile user_group_id members w in
  store (snd out) = store w
  ∧ (∃ e, fst out = Raised e)
  ∧ (group_resolves = false →
     fst out = Raised InvalidUserGroup ∧ kind_of InvalidUserGroup = NotFoundError)
  ∧ (group_resolves = true →
     (∃ uid, uid ∈ members ∧ known_user (store w) realm uid = None) →
     ∃ uid, fst out = Raised (InvalidUserId uid)
            ∧ uid ∈ members
            ∧ known_user (store w) realm uid = None
            ∧ kind_of (InvalidUserId uid) = NotFoundError)
  ∧ (group_resolves = true →
     (∀ uid, uid ∈ members → is_Some (known_user (store w) realm uid)) →
     ∃ uid, fst out = Raised (AlreadyMember uid)
            ∧ uid ∈ members
            ∧ (user_group_id, uid) ∈ memberships (store w)
            ∧ kind_of (AlreadyMember uid) = ConflictError).
Proof.
  intros (uid & Hin & Hmember) realm group_resolves out.
  subst out group_resolves. unfold add_members_to_group_backend.
  rewrite bool_decide_eq_false_2 by (intros ->; by apply elem_of_nil in Hin).
  set (s := store w).
  destruct (is_named s user_group_id && in_realm s realm user_group_id) eqn:Haccess.
  2:{ erewrite atomic_raised.
      2:{ erewrite bind_raised; [done|].
          rewrite access_user_group_by_id_run. fold s realm. by rewrite Haccess. }
      cbn. split; [done|]. split; [by eexists|]. split; [done|]. split; done. }
  destruct (resolve_users s realm (remove_dups members)) as [us|e] eqn:Husers.
  2:{ erewrite atomic_raised.
      2:{ erewrite bind_ok;
            [|rewrite access_user_group_by_id_run; fold s realm; by rewrite Haccess].
          erewrite bind_raised; [done|].
          rewrite user_ids_to_users_run. cbn. fold s realm. by rewrite Husers. }
      apply resolve_users_raised in Husers as (bad & -> & Hbad & Hnone).
      rewrite elem_of_remove_dups in Hbad.
      cbn. split; [done|]. split; [by eexists|]. split; [done|]. split.
      - intros _ _. by exists bad.
      - intros _ Hall. destruct (Hall _ Hbad) as [? Hsome]. congruence. }
  pose proof (resolve_users_ids _ _ _ _ Husers) as Hids.
  set (existing := filter (λ x, x ∈ direct_member_ids s user_group_id) (user_id <$> us)).
  assert (∃ u, find (λ u, bool_decide (user_id u ∈ py_set existing)) us = Some u)
    as [u Hfind].
  { assert (uid ∈ user_id <$> us) as (u0 & Hu0 & Hin0)%list_elem_of_fmap.
    { rewrite Hids. by rewrite elem_of_remove_dups. }
    destruct (find _ us) as [u|] eqn:Hnone; [by eexists|].
    exfalso. eapply find_none in Hnone; [|by apply list_elem_of_In].
    apply bool_decide_eq_false in Hnone. apply Hnone.
    apply py_set_elem. subst existing. apply list_elem_of_filter. split.
    - rewrite <- Hu0. by apply elem_of_direct_member_ids.
    - apply list_elem_of_fmap. eauto. }
  erewrite atomic_raised.
  2:{ erewrite bind_ok;
        [|rewrite access_user_group_by_id_run; fold s realm; by rewrite Haccess].
      erewrite bind_ok;
        [|rewrite user_ids_to_users_run; cbn; fold s realm; by rewrite Husers].
      erewrite bind_ok; [|by rewrite get_direct_memberships_of_users_run].
      cbn [store]. fold s existing.
      erewrite bind_raised; [done|].
      rewrite (for_each_check
                 (λ member_user, bool_decide (user_id member_user ∈ py_set existing))
                 (λ member_user, AlreadyMember (user_id member_user))).
      by rewrite Hfind. }
  cbn. split; [done|]. split; [by eexists|]. split; [done|]. split.
  { intros _ (bad & Hbad & Hnone).
    assert (is_Some (known_user s realm bad)) as [? Hsome]; [|congruence].
    eapply resolve_users_ok_known; [exact Husers|]. by rewrite elem_of_remove_dups. }
  intros _ _.
  exists (user_id u). split; [done|].
  apply find_some in Hfind as [Hu Hexisting].
  apply bool_decide_eq_true, py_set_elem in Hexisting.
  subst existing. apply list_elem_of_filter in Hexisting as [Hmem Hlisted].
  rewrite Hids, elem_of_remove_dups in Hlisted.
  apply elem_of_direct_member_ids in Hmem. done.
Qed.

Lemma add_members_with_existing_member_fails_witness :
  (∃ uid, uid ∈ [1; 999] ∧ (100, uid) ∈ memberships (store Sample.with_leads))
  ∧ (∃ uid, uid ∈ [1] ∧ (100, uid) ∈ memberships (store Sample.with_leads))
  ∧ (let out := add_members_to_group_backend Sample.alice 100 [1; 999] Sample.with_leads in
     store (snd out) = store Sample.with_leads
     ∧ ∃ uid, fst out = Raised (InvalidUserId uid)
              ∧ uid ∈ [1; 999]
              ∧ known_user (store Sample.with_leads) (user_realm Sample.alice) uid = None
              ∧ kind_of (InvalidUserId uid) = NotFoundError)
  ∧ (let out := add_members_to_group_backend Sample.alice 100 [1] Sample.with_leads in
     store (snd out) = store Sample.with_leads
     ∧ ∃ uid, fst out = Raised (AlreadyMember uid)
              ∧ uid ∈ [1]
              ∧ (100, uid) ∈ memberships (store Sample.with_leads)
              ∧ kind_of (AlreadyMember uid) = ConflictError).
Proof.
  assert ((100, 1) ∈ memberships (store Sample.with_leads)) as Hmember.
  { apply (bool_decide_unpack _). vm_compute. exact I. }
  assert (∃ uid, uid ∈ [1; 999] ∧ (100, uid) ∈ memberships (store Sample.with_leads))
    as Hpre2 by (exists 1; split; [by left | done]).
  assert (∃ uid, uid ∈ [1] ∧ (100, uid) ∈ memberships (store Sample.with_leads))
    as Hpre1 by (exists 1; split; [by left | done]).
  split; [exact Hpre2|]. split; [exact Hpre1|]. split.
  - destruct (add_members_with_existing_member_fails Sample.alice 100 [1; 999]
                Sample.with_leads Hpre2) as (Hstore & _ & _ & Hlookup & _).
    split; [exact Hstore|]. apply Hlookup.
    + vm_compute. reflexivity.
    + exists 999. split; [by right; left|]. vm_compute. reflexivity.
  - destruct (add_members_with_existing_member_fails Sample.alice 100 [1]
                Sample.with_leads Hpre1) as (Hstore & _ & _ & _ & Hconflict).
    split; [exact Hstore|]. apply Hconflict.
    + vm_compute. reflexivity.
    + intros uid ->%list_elem_of_singleton. eexists. vm_compute. reflexivity.
Defined.

(** C6, as stated, fails when the list also holds an id that is no user of the
    realm: user 1 is a member of group 100, yet the request is refused as
    "Invalid user ID", a not-found error, not as a conflict. *)
Lemma add_members_unknown_id_is_not_a_conflict :
  let out := add_members_to_group_backend Sample.alice 100 [1; 999] Sample.with_leads in
  (100, 1) ∈ memberships (store Sample.with_leads)
  ∧ fst out = Raised (InvalidUserId 999)
  ∧ kind_of (InvalidUserId 999) ≠ ConflictError.
Proof.
  split; [apply (bool_decide_unpack _); vm_compute; exact I|].
  split; [vm_compute; reflexivity | discriminate].
Qed.

(** ** Adding subgroups *)

Section SubgroupFacts.
Import Graph.

Lemma filter_all {A} (P : A → Prop) `{!∀ x, Decision (P x)} (l : list A) :
  (∀ x, x ∈ l → P x) → filter P l = l.
Proof.
  induction l as [|x l IH]; intros Hall; [done|].
  rewrite filter_cons_True by (apply Hall; by left).
  f_equal. apply IH. intros y Hy. apply Hall. by right.
Qed.

Lemma filter_none {A} (P : A → Prop) `{!∀ x, Decision (P x)} (l : list A) :
  (∀ x, x ∈ l → ¬ P x) → filter P l = [].
Proof.
  induction l as [|x l IH]; intros Hall; [done|].
  rewrite filter_cons_False by (apply Hall; by left).
  apply IH. intros y Hy. apply Hall. by right.
Qed.

Lemma Forall_elem_of {A} (P : A → Prop) (l : list A) :
  Forall P l ↔ ∀ x, x ∈ l → P x.
Proof. rewrite List.Forall_forall. by setoid_rewrite list_elem_of_In. Qed.

Lemma Exists_elem_of {A} (P : A → Prop) (l : list A) :
  Exists P l ↔ ∃ x, x ∈ l ∧ P x.
Proof. rewrite List.Exists_exists. by setoid_rewrite list_elem_of_In. Qed.

Lemma list_to_set_remove_dups_Z (l : list Z) :
  list_to_set (C:=gset Z) (remove_dups l) = list_to_set l.
Proof. apply set_eq. intros x. by rewrite !elem_of_list_to_set, elem_of_remove_dups. Qed.

Lemma edges_from_remove_dups (p : Z) (cs : list Z) :
  edges_from p (remove_dups cs) = edges_from p cs.
Proof.
  apply set_eq. intros [a b]. by rewrite !elem_of_edges_from, elem_of_remove_dups.
Qed.

Lemma below_iff (E : edges) (X : gset Z) (y : Z) :
  below E X y ↔ y ∈ X ∨ ∃ x, x ∈ X ∧ tc (edge E) x y.
Proof.
  unfold below. split.
  - intros (x & Hx & [-> | Htc]%rtc_tc); [by left | right; eauto].
  - intros [Hy | (x & Hx & Htc)].
    + exists y. by split.
    + exists x. split; [done | by apply tc_rtc].
Qed.

(** With the supergroup and every candidate resolved, the lock helper runs
    its block on the candidates and their recursive subgroups, and undoes the
    block's writes when it raises. *)
Lemma lock_subgroups_run {A} (ids : list Z) (p : Z) (u : UserProfile)
    (block : LockedUserGroupContext → M A) (w : World) :
  is_named (store w) p && in_realm (store w) (user_realm u) p = true →
  (∀ g, g ∈ ids → in_realm (store w) (user_realm u) g = true) →
  let recursive := recursive_subgroup_ids (subgroup_edges (store w)) (list_to_set ids) in
  let locked := mkWorld (store w)
                  ((log w ++ [Locked (recursive ∪ {[p]})]) ++ [ReadGroup p]) in
  lock_subgroups_with_respect_to_supergroup ids p u block w
  = atomic (λ _, block (mkContext p (remove_dups ids) recursive) locked) w.
Proof.
  intros Haccess Hall recursive locked.
  unfold lock_subgroups_with_respect_to_supergroup, atomic.
  unfold bind at 1. unfold query at 1.
  rewrite (filter_all (λ g, in_realm (store w) (user_realm u) g = true)
                      (remove_dups ids))
    by (intros g Hg; apply Hall; by rewrite elem_of_remove_dups in Hg).
  rewrite list_to_set_remove_dups_Z. fold recursive.
  unfold bind at 1. unfold emit at 1.
  unfold bind at 1. rewrite access_user_group_by_id_run. cbn [store log].
  rewrite Haccess.
  rewrite (filter_none (λ g, g ∉ remove_dups ids) ids); [done|].
  intros g Hg Hnot. apply Hnot. by rewrite elem_of_remove_dups.
Qed.

End SubgroupFacts.

Lemma in_closure_iff (E : Graph.edges) (ids : list Z) (p : Z) :
  p ∈ Graph.recursive_subgroup_ids E (list_to_set ids)
  ↔ p ∈ ids ∨ ∃ g, g ∈ ids ∧ tc (Graph.edge E) g p.
Proof.
  rewrite recursive_subgroup_ids_spec, below_iff.
  by setoid_rewrite elem_of_list_to_set.
Qed.

(** [add_subgroups_to_group_backend] once the lock helper has resolved the
    supergroup and the candidates and none of them is a direct subgroup yet:
    what is left is the cycle check. *)
Lemma add_subgroups_run
    (user_profile : UserProfile) (p : Z) (ids : list Z) (w : World) :
  ids ≠ [] →
  is_named (store w) p && in_realm (store w) (user_realm user_profile) p = true →
  (∀ g, g ∈ ids → in_realm (store w) (user_realm user_profile) g = true) →
  (∀ g, g ∈ ids → (p, g) ∉ subgroup_edges (store w)) →
  let recursive :=
    Graph.recursive_subgroup_ids (subgroup_edges (store w)) (list_to_set ids) in
  let l := (log w ++ [Locked (recursive ∪ {[p]})]) ++ [ReadGroup p] in
  add_subgroups_to_group_backend user_profile p ids w
  = if bool_decide (p ∈ recursive)
    then (Raised (AlreadySubgroupOfPassed p), mkWorld (store w) l)
    else (Ok tt, mkWorld (set_subgroup_edges (λ E, E ∪ edges_from p ids) (store w)) l).
Proof.
  intros Hne Haccess Hall Hnew recursive l.
  unfold add_subgroups_to_group_backend.
  rewrite bool_decide_eq_false_2 by done.
  rewrite lock_subgroups_run by done. fold recursive.
  unfold atomic. unfold bind at 1. unfold existing_direct_subgroup_ids at 1.
  unfold bind at 1. unfold query at 1. unfold ret at 1. cbn [supergroup store].
  unfold bind at 1. cbn [direct_subgroups recursive_subgroups].
  rewrite (for_each_check
             (λ group, bool_decide
                (group ∈ Graph.direct_subgroup_ids (subgroup_edges (store w)) p))
             AlreadySubgroup).
  destruct (find _ (remove_dups ids)) as [g|] eqn:Hfind.
  { exfalso. apply find_some in Hfind as [Hg Hdirect].
    apply list_elem_of_In in Hg. rewrite elem_of_remove_dups in Hg.
    apply bool_decide_eq_true, elem_of_direct_subgroup_ids in Hdirect.
    by apply (Hnew g). }
  case_bool_decide; [done|].
  unfold add_subgroups_to_user_group, update. cbn [store log].
  unfold set_subgroup_edges. by rewrite edges_from_remove_dups.
Qed.

(** C1.  Let the supergroup [p] resolve for the caller, the candidate list be
    non-empty, every candidate resolve in the realm and none be a direct
    subgroup of [p] already.  Then [add_subgroups_to_group_backend] fails
    with the cycle error exactly when [p] is one of the candidates or a
    recursive subgroup of one of them in the graph as it is before the call;
    in that case no row changes.  Otherwise it succeeds and the store differs
    by the edges from [p] to each candidate. *)
Theorem add_subgroups_cycle_error_iff_in_closure
    (user_profile : UserProfile) (p : Z) (ids : list Z) (w : World) :
  ids ≠ [] →
  is_named (store w) p && in_realm (store w) (user_realm user_profile) p = true →
  (∀ g, g ∈ ids → in_realm (store w) (user_realm user_profile) g = true) →
  (∀ g, g ∈ ids → (p, g) ∉ subgroup_edges (store w)) →
  let E := subgroup_edges (store w) in
  let in_closure := p ∈ ids ∨ ∃ g, g ∈ ids ∧ tc (Graph.edge E) g p in
  let out := add_subgroups_to_group_backend user_profile p ids w in
  ((∃ e, fst out = Raised e ∧ kind_of e = CycleError) ↔ in_closure)
  ∧ (in_closure →
       fst out = Raised (AlreadySubgroupOfPassed p) ∧ store (snd out) = store w)
  ∧ (¬ in_closure →
       fst out = Ok tt
       ∧ store (snd out) = set_subgroup_edges (λ E, E ∪ edges_from p ids) (store w)).
Proof.
  intros Hne Haccess Hall Hnew E in_closure out.
  subst out. rewrite add_subgroups_run by done. fold E.
  pose proof (in_closure_iff E ids p) as Hclosure. fold in_closure in Hclosure.
  case_bool_decide as Hin; rewrite Hclosure in Hin; cbn [fst snd store].
  - split; [|split].
    + split; [done | intros _; by eexists].
    + done.
    + intros Hnot. by destruct Hnot.
  - split; [|split].
    + split; [by intros (e & [=] & _) | done].
    + intros Hyes. by destruct Hin.
    + done.
Qed.

Lemma add_subgroups_cycle_error_iff_in_closure_witness :
  let w := Sample.nested in
  let E := subgroup_edges (store w) in
  let in_closure := 101 ∈ [100] ∨ ∃ g, g ∈ [100] ∧ tc (Graph.edge E) g 101 in
  let out := add_subgroups_to_group_backend Sample.alice 101 [100] w in
  ((∃ e, fst out = Raised e ∧ kind_of e = CycleError) ↔ in_closure)
  ∧ (in_closure →
       fst out = Raised (AlreadySubgroupOfPassed 101) ∧ store (snd out) = store w)
  ∧ (¬ in_closure →
       fst out = Ok tt
       ∧ store (snd out) = set_subgroup_edges (λ E, E ∪ edges_from 101 [100]) (store w)).
Proof.
  apply (add_subgroups_cycle_error_iff_in_closure Sample.alice 101 [100] Sample.nested).
  - discriminate.
  - vm_compute. reflexivity.
  - intros g ->%list_elem_of_singleton. vm_compute. reflexivity.
  - intros g ->%list_elem_of_singleton. apply (bool_decide_unpack _). vm_compute. exact I.
Defined.

(** The scenario of the two nested groups: "leads" goes under "eng", and
    "eng" is then refused under "leads". *)
Example eng_leads_scenario :
  fst (add_subgroups_to_group_backend Sample.alice 100 [101] Sample.with_leads) = Ok tt
  ∧ fst (add_subgroups_to_group_backend Sample.alice 101 [100] Sample.nested)
    = Raised (AlreadySubgroupOfPassed 101).
Proof. split; vm_compute; reflexivity. Qed.

(** ** What each single-list operation leaves behind *)

Section OperationResults.

Lemma edges_from_nil (p : Z) : edges_from p [] = ∅.
Proof. reflexivity. Qed.

Lemma notify_run (acting : UserProfile) (recipients : list UserProfile) (g : Z)
    (sub unsub : bool) (w : World) :
  fst (notify_for_user_group_subscription_changes acting recipients g sub unsub w) = Ok tt
  ∧ store (snd (notify_for_user_group_subscription_changes acting recipients g sub unsub w))
    = store w.
Proof.
  unfold notify_for_user_group_subscription_changes. by case_bool_decide.
Qed.

Lemma set_memberships_union_empty (s : Store) : set_memberships (λ m, m ∪ ∅) s = s.
Proof. destruct s. unfold set_memberships. cbn. f_equal. apply union_empty_r_L. Qed.

Lemma set_subgroup_edges_union_empty (s : Store) : set_subgroup_edges (λ E, E ∪ ∅) s = s.
Proof. destruct s. unfold set_subgroup_edges. cbn. f_equal. apply union_empty_r_L. Qed.

Lemma set_memberships_difference_empty (s : Store) : set_memberships (λ m, m ∖ ∅) s = s.
Proof. destruct s. unfold set_memberships. cbn. f_equal. apply difference_empty_L. Qed.

Lemma set_subgroup_edges_difference_empty (s : Store) :
  set_subgroup_edges (λ E, E ∖ ∅) s = s.
Proof. destruct s. unfold set_subgroup_edges. cbn. f_equal. apply difference_empty_L. Qed.

(** A request that raises inside [transaction.atomic] leaves the rows alone. *)
Lemma atomic_store {A} (m : M A) (w : World) (e : JsonableError) :
  fst (atomic m w) = Raised e → store (snd (atomic m w)) = store w.
Proof. unfold atomic. by destruct (m w) as [[a|e'] w']. Qed.

Lemma add_members_result (u : UserProfile) (gid : Z) (ids : list Z) (w : World) :
  let out := add_members_to_group_backend u gid ids w in
  match fst out with
  | Ok _ => store (snd out) = set_memberships (λ m, m ∪ edges_from gid ids) (store w)
  | Raised _ => store (snd out) = store w
  end.
Proof.
  intros out. destruct (fst out) as [[]|e] eqn:Hres; [|by eapply atomic_store].
  subst out. unfold add_members_to_group_backend in *.
  case_bool_decide as Hnil.
  { subst ids. by rewrite edges_from_nil, set_memberships_union_empty. }
  unfold atomic in *. unfold bind at 1 in Hres. unfold bind at 1.
  rewrite access_user_group_by_id_run in *.
  destruct (is_named _ _ && in_realm _ _ _); [|done].
  unfold bind at 1 in Hres. unfold bind at 1.
  rewrite user_ids_to_users_run in *. cbn [store] in *.
  destruct (resolve_users _ _ _) as [us|] eqn:Husers; [|done].
  apply resolve_users_ids in Husers.
  unfold bind at 1 in Hres. unfold bind at 1.
  rewrite get_direct_memberships_of_users_run in *. cbn [store] in *.
  unfold bind at 1 in Hres. unfold bind at 1.
  rewrite (for_each_check
             (λ member_user, bool_decide (user_id member_user ∈ py_set _))
             (λ member_user, AlreadyMember (user_id member_user))) in *.
  destruct (find _ us); [done|].
  unfold bind at 1 in Hres. unfold bind at 1. cbn [bulk_add_members_to_user_groups for_each].
  unfold bind at 1, update at 1, ret at 1. cbn [store log].
  match goal with
  | |- context [notify_for_user_group_subscription_changes ?a ?r ?g ?x ?y ?w0] =>
      destruct (notify_run a r g x y w0) as [Hok Hsame];
      destruct (notify_for_user_group_subscription_changes a r g x y w0) as [[[]|e] w1]
  end; [|done].
  cbn in Hsame |- *. rewrite Hsame. cbn. rewrite Husers.
  unfold set_memberships. cbn. by rewrite edges_from_remove_dups.
Qed.

Lemma remove_members_result (u : UserProfile) (gid : Z) (ids : list Z) (w : World) :
  let out := remove_members_from_group_backend u gid ids w in
  match fst out with
  | Ok _ => store (snd out) = set_memberships (λ m, m ∖ edges_from gid ids) (store w)
  | Raised _ => store (snd out) = store w
  end.
Proof.
  intros out. destruct (fst out) as [[]|e] eqn:Hres; [|by eapply atomic_store].
  subst out. unfold remove_members_from_group_backend in *.
  case_bool_decide as Hnil.
  { subst ids. by rewrite edges_from_nil, set_memberships_difference_empty. }
  unfold atomic in *. unfold bind at 1 in Hres. unfold bind at 1.
  rewrite user_ids_to_users_run in *.
  destruct (resolve_users _ _ _) as [us|] eqn:Husers; [|done].
  apply resolve_users_ids in Husers.
  unfold bind at 1 in Hres. unfold bind at 1.
  rewrite access_user_group_by_id_run in *. cbn [store] in *.
  destruct (is_named _ _ && in_realm _ _ _); [|done].
  unfold bind at 1 in Hres. unfold bind at 1.
  unfold get_user_group_direct_member_ids at 1 in Hres.
  unfold get_user_group_direct_member_ids at 1.
  unfold bind at 1, emit at 1, bind at 1, query at 1, ret at 1 in Hres.
  unfold bind at 1, emit at 1, bind at 1, query at 1, ret at 1. cbn [store log] in *.
  unfold bind at 1 in Hres. unfold bind at 1.
  rewrite (for_each_check (λ member, bool_decide (member ∉ _)) NoSuchMember) in *.
  destruct (find _ ids); [done|].
  unfold bind at 1 in Hres. unfold bind at 1.
  cbn [bulk_remove_members_from_user_groups for_each].
  unfold bind at 1, update at 1, ret at 1. cbn [store log].
  match goal with
  | |- context [notify_for_user_group_subscription_changes ?a ?r ?g ?x ?y ?w0] =>
      destruct (notify_run a r g x y w0) as [Hok Hsame];
      destruct (notify_for_user_group_subscription_changes a r g x y w0) as [[[]|e] w1]
  end; [|done].
  cbn in Hsame |- *. rewrite Hsame. cbn. rewrite Husers.
  unfold set_memberships. cbn. by rewrite edges_from_remove_dups.
Qed.

Lemma lock_subgroups_raised_store {A} (ids : list Z) (p : Z) (u : UserProfile)
    (block : LockedUserGroupContext → M A) (w : World) (e : JsonableError) :
  fst (lock_subgroups_with_respect_to_supergroup ids p u block w) = Raised e →
  store (snd (lock_subgroups_with_respect_to_supergroup ids p u block w)) = store w.
Proof. apply atomic_store. Qed.

(** Either the lock helper refuses before its block runs, or the supergroup
    and all candidates resolved and the block runs on them. *)
Lemma lock_subgroups_cases {A} (ids : list Z) (p : Z) (u : UserProfile)
    (block : LockedUserGroupContext → M A) (w : World) :
  let out := lock_subgroups_with_respect_to_supergroup ids p u block w in
  (∃ e, fst out = Raised e)
  ∨ (is_named (store w) p && in_realm (store w) (user_realm u) p = true
     ∧ ∀ g, g ∈ ids → in_realm (store w) (user_realm u) g = true).
Proof.
  intros out.
  destruct (is_named (store w) p && in_realm (store w) (user_realm u) p) eqn:Haccess.
  2:{ left. subst out. unfold lock_subgroups_with_respect_to_supergroup, atomic.
      unfold bind at 1, query at 1. unfold bind at 1, emit at 1.
      unfold bind at 1. rewrite access_user_group_by_id_run. cbn [store].
      rewrite Haccess. by eexists. }
  destruct (decide (Forall (λ g, in_realm (store w) (user_realm u) g = true) ids))
    as [Hall | Hmissing]; rewrite Forall_elem_of in *; [right; split; [done | exact Hall]|].
  left. subst out. unfold lock_subgroups_with_respect_to_supergroup, atomic.
  unfold bind at 1, query at 1. unfold bind at 1, emit at 1.
  unfold bind at 1. rewrite access_user_group_by_id_run. cbn [store].
  rewrite Haccess.
  destruct (filter _ ids) as [|missing rest] eqn:Hfilter; [|by eexists].
  exfalso. apply Hmissing. intros g Hg.
  destruct (decide (g ∈ filter (λ g, in_realm (store w) (user_realm u) g = true)
                               (remove_dups ids))) as [Hfound | Hnot].
  - by apply list_elem_of_filter in Hfound as [? _].
  - assert (g ∈ filter (λ g, g ∉ filter (λ g, in_realm (store w) (user_realm u) g = true)
                                        (remove_dups ids)) ids) as Hin
      by by apply list_elem_of_filter.
    rewrite Hfilter in Hin. by apply elem_of_nil in Hin.
Qed.

Lemma add_subgroups_result (u : UserProfile) (p : Z) (ids : list Z) (w : World) :
  let out := add_subgroups_to_group_backend u p ids w in
  match fst out with
  | Ok _ =>
      store (snd out) = set_subgroup_edges (λ E, E ∪ edges_from p ids) (store w)
      ∧ (∀ g, g ∈ ids → in_realm (store w) (user_realm u) g = true)
      ∧ ¬ (p ∈ ids ∨ ∃ g, g ∈ ids ∧ tc (Graph.edge (subgroup_edges (store w))) g p)
  | Raised _ => store (snd out) = store w
  end.
Proof.
  intros out. subst out. unfold add_subgroups_to_group_backend.
  case_bool_decide as Hnil.
  { subst ids. cbn [fst snd ret].
    rewrite edges_from_nil, set_subgroup_edges_union_empty.
    split; [done|]. split; [by intros g ?%elem_of_nil|].
    intros [?%elem_of_nil | (g & ?%elem_of_nil & _)]; done. }
  match goal with
  | |- context [lock_subgroups_with_respect_to_supergroup ids p u ?b w] =>
      set (block := b)
  end.
  destruct (fst (lock_subgroups_with_respect_to_supergroup ids p u block w))
    as [[]|e] eqn:Hres; [|by eapply lock_subgroups_raised_store].
  destruct (lock_subgroups_cases ids p u block w) as [[e He] | [Haccess Hall]];
    [congruence|].
  destruct (decide (Exists (λ g, (p, g) ∈ subgroup_edges (store w)) ids))
    as [(g & Hg & Hedge)%Exists_elem_of | Hnew].
  { exfalso. revert Hres. rewrite lock_subgroups_run by done.
    unfold atomic. subst block. cbv beta.
    unfold bind at 1. unfold existing_direct_subgroup_ids at 1.
    unfold bind at 1. unfold query at 1. unfold ret at 1. cbn [supergroup store].
    unfold bind at 1. cbn [direct_subgroups recursive_subgroups].
    rewrite (for_each_check
               (λ group, bool_decide
                           (group ∈ Graph.direct_subgroup_ids (subgroup_edges (store w)) p))
               AlreadySubgroup).
    destruct (find _ (remove_dups ids)) as [g'|] eqn:Hfind; [done|].
    eapply find_none in Hfind;
      [|apply list_elem_of_In; rewrite elem_of_remove_dups; exact Hg].
    apply bool_decide_eq_false in Hfind. exfalso. apply Hfind.
    by apply elem_of_direct_subgroup_ids. }
  assert (add_subgroups_to_group_backend u p ids w
          = lock_subgroups_with_respect_to_supergroup ids p u block w) as Heq.
  { unfold add_subgroups_to_group_backend. by rewrite bool_decide_eq_false_2. }
  rewrite <- Heq in *. revert Hres. rewrite add_subgroups_run; [|done..|].
  2:{ intros g Hg Hedge. apply Hnew, Exists_elem_of. eauto. }
  case_bool_decide as Hin; [done|]. intros _. cbn [fst snd store].
  split; [done|]. split; [done|]. by rewrite <- in_closure_iff.
Qed.

Lemma remove_subgroups_result (u : UserProfile) (p : Z) (ids : list Z) (w : World) :
  let out := remove_subgroups_from_group_backend u p ids w in
  match fst out with
  | Ok _ => store (snd out) = set_subgroup_edges (λ E, E ∖ edges_from p ids) (store w)
  | Raised _ => store (snd out) = store w
  end.
Proof.
  intros out. subst out. unfold remove_subgroups_from_group_backend.
  case_bool_decide as Hnil.
  { subst ids. cbn [fst snd ret].
    by rewrite edges_from_nil, set_subgroup_edges_difference_empty. }
  match goal with
  | |- context [lock_subgroups_with_respect_to_supergroup ids p u ?b w] =>
      set (block := b)
  end.
  set (out := lock_subgroups_with_respect_to_supergroup ids p u block w).
  destruct (lock_subgroups_cases ids p u block w) as [[e He] | [Haccess Hall]].
  { subst out. rewrite He. by eapply lock_subgroups_raised_store. }
  assert (∃ l, out = match find (λ group, bool_decide
                     (group ∉ Graph.direct_subgroup_ids (subgroup_edges (store w)) p))
                     (remove_dups ids) with
                | Some g => (Raised (NotSubgroup g), mkWorld (store w) l)
                | None => (Ok tt, mkWorld (set_subgroup_edges
                                             (λ E, E ∖ edges_from p (remove_dups ids))
                                             (store w)) l)
                end) as [l Hout].
  { eexists. subst out. rewrite lock_subgroups_run by done.
    unfold atomic. subst block. cbv beta.
    unfold bind at 1. unfold existing_direct_subgroup_ids at 1.
    unfold bind at 1. unfold query at 1. unfold ret at 1. cbn [supergroup store].
    unfold bind at 1. cbn [direct_subgroups recursive_subgroups].
    rewrite (for_each_check
               (λ group, bool_decide
                  (group ∉ Graph.direct_subgroup_ids (subgroup_edges (store w)) p))
               NotSubgroup).
    by destruct (find _ (remove_dups ids)). }
  rewrite Hout. destruct (find _ (remove_dups ids)); [done|].
  cbn [fst snd store]. unfold set_subgroup_edges. by rewrite edges_from_remove_dups.
Qed.

Lemma delete_user_group_result {C : Collaborators}
    (u : UserProfile) (gid : Z) (w : World) :
  let out := delete_user_group u gid w in
  match fst out with
  | Ok _ => store (snd out) = drop_group gid (store w)
  | Raised _ => store (snd out) = store w
  end.
Proof.
  intros out. subst out. unfold delete_user_group.
  match goal with
  | |- context [lock_subgroups_with_respect_to_supergroup [gid] gid u ?b w] =>
      set (block := b)
  end.
  set (out := lock_subgroups_with_respect_to_supergroup [gid] gid u block w).
  destruct (lock_subgroups_cases [gid] gid u block w) as [[e He] | [Haccess Hall]].
  { subst out. rewrite He. by eapply lock_subgroups_raised_store. }
  assert (∃ l, out = if group_deletable (store w) gid
                then (Ok tt, mkWorld (drop_group gid (store w)) l)
                else (Raised GroupNotDeletable, mkWorld (store w) l))
    as [l Hout].
  { eexists. subst out. rewrite lock_subgroups_run by done.
    unfold atomic. subst block. cbv beta. cbn [supergroup].
    unfold check_delete_user_group. unfold bind at 1, query at 1. cbn [store].
    by destruct (group_deletable (store w) gid). }
  rewrite Hout. by destruct (group_deletable (store w) gid).
Qed.

(** Two views composed: the second runs in the world the first leaves, and a
    failure of either undoes both. *)
Lemma compose_views_two (first second : M unit) (w : World) :
  compose_views [first; second] w
  = match first w with
    | (Raised e, w1) => (Raised e, mkWorld (store w) (log w1))
    | (Ok _, w1) =>
        match second w1 with
        | (Ok _, w2) => (Ok tt, w2)
        | (Raised e, w2) => (Raised e, mkWorld (store w) (log w2))
        end
    end.
Proof.
  unfold compose_views, atomic. cbn [for_each]. unfold bind at 1.
  destruct (first w) as [[[]|e] w1]; [|done].
  unfold bind. destruct (second w1) as [[[]|e] w2]; done.
Qed.

End OperationResults.

(** ** The update views with both lists *)

(** What [compose_views_two] gives for the two update views.  Both build the
    list of the addition thunk followed by the removal thunk.  Where
    [compose_views] calls the thunks of its list from first to last, as it is
    modelled here, a request with a non-empty add list and a non-empty delete
    list ends as follows: if the additions raise, the request raises the same
    error and no row changes; otherwise the request ends as the removals end
    on the world the additions left, and when they succeed the edges are
    those before the request, plus the added ones, minus the removed ones.
    The order in which [compose_views] itself calls the thunks is not in the
    sources, so this is a fact about the model of it only. *)
Lemma update_views_in_list_order
    (user_profile : UserProfile) (user_group_id : Z) (delete add : list Z) (w : World) :
  add ≠ [] → delete ≠ [] →
  (let added := add_members_to_group_backend user_profile user_group_id add w in
   let out := update_user_group_backend user_profile user_group_id delete add w in
   match fst added with
   | Raised e => fst out = Raised e ∧ store (snd out) = store w
   | Ok _ =>
       let removed :=
         remove_members_from_group_backend user_profile user_group_id delete (snd added) in
       fst out = fst removed
       ∧ match fst removed with
         | Ok _ =>
             store (snd out)
             = set_memberships
                 (λ m, (m ∪ edges_from user_group_id add) ∖ edges_from user_group_id delete)
                 (store w)
         | Raised _ => store (snd out) = store w
         end
   end)
  ∧ (let added := add_subgroups_to_group_backend user_profile user_group_id add w in
     let out := update_subgroups_of_user_group user_profile user_group_id delete add w in
     match fst added with
     | Raised e => fst out = Raised e ∧ store (snd out) = store w
     | Ok _ =>
         let removed :=
           remove_subgroups_from_group_backend user_profile user_group_id delete
                                               (snd added) in
         fst out = fst removed
         ∧ match fst removed with
           | Ok _ =>
               store (snd out)
               = set_subgroup_edges
                   (λ E, (E ∪ edges_from user_group_id add)
                           ∖ edges_from user_group_id delete)
                   (store w)
           | Raised _ => store (snd out) = store w
           end
     end).
Proof.
  intros Hadd Hdelete. split.
  - unfold update_user_group_backend.
    rewrite (bool_decide_eq_false_2 (add = [])) by done. cbn [andb].
    rewrite compose_views_two.
    pose proof (add_members_result user_profile user_group_id add w) as Hadded.
    destruct (add_members_to_group_backend user_profile user_group_id add w)
      as [[[]|e] w1]; cbn [fst snd] in *; [|done].
    pose proof (remove_members_result user_profile user_group_id delete w1) as Hremoved.
    destruct (remove_members_from_group_backend user_profile user_group_id delete w1)
      as [[[]|e] w2]; cbn [fst snd] in *; [|done].
    split; [done|]. by rewrite Hremoved, Hadded.
  - unfold update_subgroups_of_user_group.
    rewrite (bool_decide_eq_false_2 (add = [])) by done. cbn [andb].
    rewrite compose_views_two.
    pose proof (add_subgroups_result user_profile user_group_id add w) as Hadded.
    destruct (add_subgroups_to_group_backend user_profile user_group_id add w)
      as [[[]|e] w1]; cbn [fst snd] in *; [|done].
    destruct Hadded as (Hadded & _ & _).
    pose proof (remove_subgroups_result user_profile user_group_id delete w1) as Hremoved.
    destruct (remove_subgroups_from_group_backend user_profile user_group_id delete w1)
      as [[[]|e] w2]; cbn [fst snd] in *; [|done].
    split; [done|]. by rewrite Hremoved, Hadded.
Qed.

(** User 2 is not in "leads".  With the thunks called in list order, a
    request that both adds and removes user 2 is served, while the removal
    alone is refused. *)
Example add_then_remove_same_user :
  fst (update_user_group_backend Sample.alice 101 [2] [2] Sample.with_leads) = Ok tt
  ∧ fst (remove_members_from_group_backend Sample.alice 101 [2] Sample.with_leads)
    = Raised (NoSuchMember 2).
Proof. split; vm_compute; reflexivity. Qed.

(** ** Editing a group with the setting it already has *)

Section EditFacts.
Context {C : Collaborators}.

Lemma settings_untouched_refl (s : Store) : settings_untouched s s.
Proof. by repeat split. Qed.

Lemma settings_untouched_trans (s1 s2 s3 : Store) :
  settings_untouched s1 s2 → settings_untouched s2 s3 → settings_untouched s1 s3.
Proof.
  intros (Hu & Hm & He & Hn & Hg) (Hu' & Hm' & He' & Hn' & Hg').
  repeat split; try congruence.
Qed.

Lemma settings_untouched_dom (s s' : Store) :
  settings_untouched s s' → dom (groups s') = dom (groups s).
Proof.
  intros (_ & _ & _ & _ & Hg). apply set_eq. intros gid.
  rewrite !elem_of_dom. specialize (Hg gid).
  destruct (groups s' !! gid), (groups s !! gid); try done.
  all: split; intros [? [=]].
Qed.

Lemma settings_untouched_getattr (s s' : Store) (gid : Z) :
  settings_untouched s s' → getattr_setting s' gid = getattr_setting s gid.
Proof.
  intros (_ & _ & _ & _ & Hg). unfold getattr_setting. specialize (Hg gid).
  destruct (groups s' !! gid) as [g'|], (groups s !! gid) as [g|]; try done.
  simpl in Hg. by injection Hg.
Qed.

Lemma settings_untouched_api (s s' : Store) (gid : Z) :
  settings_untouched s s' →
  get_group_setting_value_for_api s' gid = get_group_setting_value_for_api s gid.
Proof.
  intros (_ & Hm & He & _ & Hg). unfold get_group_setting_value_for_api.
  specialize (Hg gid). unfold direct_member_ids. rewrite Hm, He.
  destruct (groups s' !! gid) as [[r' [n'|] d' c']|],
           (groups s !! gid) as [[r [n|] d c]|]; try done.
Qed.

(** Changing the name or the description of a named row keeps its view. *)
Lemma alter_group_untouched (f : UserGroup → UserGroup) (gid : Z) (w : World) :
  (∀ g, groups (store w) !! gid = Some g → setting_view (f g) = setting_view g) →
  fst (alter_group f gid w) = Ok tt
  ∧ log (snd (alter_group f gid w)) = log w
  ∧ settings_untouched (store w) (store (snd (alter_group f gid w))).
Proof.
  intros Hview. unfold alter_group, update, settings_untouched, set_groups.
  cbn [fst snd store log users groups memberships subgroup_edges next_group_id].
  repeat split. intros g. rewrite lookup_alter. case_decide as Heq; [|done].
  subst g. destruct (groups (store w) !! gid) as [g|] eqn:Hg; [|done].
  cbn. f_equal. by apply Hview.
Qed.

Lemma is_named_row (s : Store) (gid : Z) (g : UserGroup) :
  is_named s gid = true → groups s !! gid = Some g → group_name g ≠ None.
Proof.
  unfold is_named. intros Hnamed Hg. rewrite Hg in Hnamed.
  apply bool_decide_eq_true in Hnamed as [n Hn]. congruence.
Qed.

Lemma do_update_user_group_name_untouched (gid : Z) (name : string) (w : World) :
  is_named (store w) gid = true →
  log (snd (do_update_user_group_name gid name w)) = log w
  ∧ settings_untouched (store w) (store (snd (do_update_user_group_name gid name w))).
Proof.
  intros Hnamed. unfold do_update_user_group_name, bind, query.
  destruct (groups (store w) !! gid) as [g|] eqn:Hg.
  2:{ cbn. split; [done | apply settings_untouched_refl]. }
  destruct (name_taken _ _ _).
  { cbn. split; [done | apply settings_untouched_refl]. }
  match goal with
  | |- context [alter_group ?f gid w] =>
      destruct (alter_group_untouched f gid w) as (_ & Hlog & Hsame)
  end; [|done].
  intros g' Hg'. pose proof (is_named_row _ _ _ Hnamed Hg') as Hsome.
  unfold setting_view. cbn. by destruct (group_name g').
Qed.

Lemma do_update_user_group_description_untouched (gid : Z) (d : string) (w : World) :
  fst (do_update_user_group_description gid d w) = Ok tt
  ∧ log (snd (do_update_user_group_description gid d w)) = log w
  ∧ settings_untouched (store w) (store (snd (do_update_user_group_description gid d w))).
Proof. unfold do_update_user_group_description. by apply alter_group_untouched. Qed.

(** The settings loop does nothing at all when the value did not change. *)
Lemma edit_settings_loop_unchanged (u : UserProfile) (gid : Z) (raw_value : SettingValue.raw)
    (table : list (string * PermissionConfig)) (w : World) :
  check_setting_value_changed (store w) (getattr_setting (store w) gid)
                              (parse_group_setting_value raw_value) = false →
  for_each table (edit_user_group_setting u gid (Some raw_value)) w = (Ok tt, w).
Proof.
  intros Hsame. induction table as [|[setting_name cfg] table IH]; [done|].
  cbn [for_each]. unfold bind at 1.
  assert (edit_user_group_setting u gid (Some raw_value) (setting_name, cfg) w = (Ok tt, w))
    as ->; [|exact IH].
  unfold edit_user_group_setting, request_settings_dict.
  case_bool_decide; [|done].
  unfold bind, query. by rewrite Hsame.
Qed.

Lemma bind_query {A} (k : Store → M A) (w : World) : bind query k w = k (store w) w.
Proof. reflexivity. Qed.

Lemma check_user_group_name_pure (name : string) (w : World) :
  snd (check_user_group_name name w) = w.
Proof. unfold check_user_group_name. by destruct (clean_user_group_name name). Qed.

(** The body of [edit_user_group], when the supplied setting is the one the
    group has: the log grows by lookups only and the settings stay. *)
Lemma edit_user_group_unchanged_setting (u : UserProfile) (gid : Z)
    (name description : option string) (raw_value : SettingValue.raw) (w : World) :
  check_setting_value_changed (store w) (getattr_setting (store w) gid)
                              (parse_group_setting_value raw_value) = false →
  let out := edit_user_group u gid name description (Some raw_value) w in
  ∃ l, log (snd out) = log w ++ l
       ∧ (∀ v, ResolvedSetting v ∉ l)
       ∧ settings_untouched (store w) (store (snd out)).
Proof.
  intros Hsame out. subst out. unfold edit_user_group.
  rewrite (bool_decide_eq_false_2 (Some raw_value = None)) by done.
  rewrite andb_false_r.
  assert (∀ v, ResolvedSetting v ∉ [ReadGroup gid]) as Hlookup.
  { intros v [=]%list_elem_of_singleton. }
  destruct (is_named (store w) gid && in_realm (store w) (user_realm u) gid) eqn:Haccess.
  2:{ erewrite atomic_raised.
      2:{ erewrite bind_raised; [done|].
          rewrite access_user_group_by_id_run. by rewrite Haccess. }
      exists [ReadGroup gid]. cbn. split; [done|]. split; [done|].
      apply settings_untouched_refl. }
  apply andb_true_iff in Haccess as Haccess'. destruct Haccess' as [Hnamed _].
  set (w1 := mkWorld (store w) (log w ++ [ReadGroup gid])).
  match goal with
  | |- context [atomic ?m w] => set (inner := m)
  end.
  assert (∃ r w', inner w = (r, w') ∧ log w' = log w1
                  ∧ settings_untouched (store w) (store w')) as (r & w' & Hinner & Hlog & Hst).
  { subst inner. cbv beta.
    erewrite bind_ok; [|rewrite access_user_group_by_id_run; by rewrite Haccess].
    fold w1. rewrite bind_query.
    match goal with
    | |- context [bind ?m _ w1] => set (name_step := m)
    end.
    assert (log (snd (name_step w1)) = log w1
            ∧ settings_untouched (store w) (store (snd (name_step w1)))) as [Hlog2 Hst2].
    { subst name_step. destruct name as [new_name|].
      2:{ split; [done | apply settings_untouched_refl]. }
      case_bool_decide.
      2:{ split; [done | apply settings_untouched_refl]. }
      unfold bind.
      pose proof (check_user_group_name_pure new_name w1) as Hpure.
      destruct (check_user_group_name new_name w1) as [[cleaned|e] w1'];
        cbn in Hpure; subst w1'.
      - exact (do_update_user_group_name_untouched gid cleaned w1 Hnamed).
      - split; [done | apply settings_untouched_refl]. }
    destruct (name_step w1) as [[[]|e] w2] eqn:Hname; cbn [fst snd] in *.
    2:{ erewrite bind_raised by exact Hname. eauto. }
    erewrite bind_ok by exact Hname.
    match goal with
    | |- context [bind ?m _ w2] => set (description_step := m)
    end.
    assert (fst (description_step w2) = Ok tt
            ∧ log (snd (description_step w2)) = log w2
            ∧ settings_untouched (store w2) (store (snd (description_step w2))))
      as (Hok3 & Hlog3 & Hst3).
    { subst description_step. destruct description as [new_description|].
      2:{ split; [done|]. split; [done | apply settings_untouched_refl]. }
      case_bool_decide.
      2:{ split; [done|]. split; [done | apply settings_untouched_refl]. }
      apply do_update_user_group_description_untouched. }
    destruct (description_step w2) as [r3 w3] eqn:Hdescription; cbn [fst snd] in *.
    subst r3. erewrite bind_ok by exact Hdescription.
    assert (settings_untouched (store w) (store w3)) as Hst13
      by by eapply settings_untouched_trans.
    rewrite edit_settings_loop_unchanged.
    - exists (Ok tt), w3. split; [done|]. split; [congruence | done].
    - unfold check_setting_value_changed in *.
      rewrite (settings_untouched_getattr _ _ _ Hst13).
      by rewrite (settings_untouched_api _ _ _ Hst13). }
  exists [ReadGroup gid]. split; [|split; [done|]].
  - unfold atomic. rewrite Hinner. by destruct r.
  - unfold atomic. rewrite Hinner. destruct r; [done|].
    apply settings_untouched_refl.
Qed.

(** C7.  When the setting supplied to [edit_user_group] compares equal to the
    one the group has (the changed-check says no), the setting is never
    resolved, no group is created, and the group's setting and the value it
    stands for are as before; this holds whatever happens to the name and the
    description in the same request. *)
Theorem edit_with_unchanged_setting_resolves_nothing (user_profile : UserProfile)
    (user_group_id : Z) (name description : option string)
    (raw_value : SettingValue.raw) (w : World) :
  check_setting_value_changed (store w) (getattr_setting (store w) user_group_id)
                              (parse_group_setting_value raw_value) = false →
  let out := edit_user_group user_profile user_group_id name description
                             (Some raw_value) w in
  (∃ l, log (snd out) = log w ++ l ∧ ∀ v, ResolvedSetting v ∉ l)
  ∧ dom (groups (store (snd out))) = dom (groups (store w))
  ∧ next_group_id (store (snd out)) = next_group_id (store w)
  ∧ getattr_setting (store (snd out)) user_group_id
    = getattr_setting (store w) user_group_id
  ∧ get_group_setting_value_for_api (store (snd out))
      (getattr_setting (store (snd out)) user_group_id)
    = get_group_setting_value_for_api (store w) (getattr_setting (store w) user_group_id).
Proof.
  intros Hsame out.
  destruct (edit_user_group_unchanged_setting user_profile user_group_id name description
              raw_value w Hsame) as (l & Hlog & Hnone & Hst).
  fold out in Hlog, Hst.
  split; [by exists l|].
  split; [by apply settings_untouched_dom|].
  split; [by destruct Hst as (_ & _ & _ & ? & _)|].
  split; [by apply settings_untouched_getattr|].
  rewrite (settings_untouched_getattr _ _ _ Hst). by apply settings_untouched_api.
Qed.

End EditFacts.

Lemma edit_with_unchanged_setting_resolves_nothing_witness :
  let w := Sample.with_setting in
  let out := edit_user_group (C := Sample.collaborators) Sample.alice 101
               (Some "team leads"%string) None (Some (RawDict [2; 1; 1] [100])) w in
  (∃ l, log (snd out) = log w ++ l ∧ ∀ v, ResolvedSetting v ∉ l)
  ∧ dom (groups (store (snd out))) = dom (groups (store w))
  ∧ next_group_id (store (snd out)) = next_group_id (store w)
  ∧ getattr_setting (store (snd out)) 101 = getattr_setting (store w) 101
  ∧ get_group_setting_value_for_api (store (snd out)) (getattr_setting (store (snd out)) 101)
    = get_group_setting_value_for_api (store w) (getattr_setting (store w) 101).
Proof.
  apply (edit_with_unchanged_setting_resolves_nothing (C := Sample.collaborators)
           Sample.alice 101 (Some "team leads"%string) None (RawDict [2; 1; 1] [100])
           Sample.with_setting).
  vm_compute. reflexivity.
Defined.

(** The same request with a different member list is resolved into a new
    anonymous group. *)
Example edit_with_changed_setting_creates_group :
  let out := edit_user_group (C := Sample.collaborators) Sample.alice 101
               None None (Some (RawDict [1] [100])) Sample.with_setting in
  fst out = Ok tt
  ∧ next_group_id (store (snd out)) = next_group_id (store Sample.with_setting) + 1.
Proof. split; vm_compute; reflexivity. Qed.

(** ** The subgroup graph stays acyclic *)

Section Invariant.
Context {C : Collaborators}.
Import Graph.

Lemma in_realm_dom (s : Store) (realm gid : Z) :
  in_realm s realm gid = true → gid ∈ dom (groups s).
Proof.
  unfold in_realm. intros Hin. apply elem_of_dom.
  by destruct (groups s !! gid).
Qed.

Lemma consistent_set_memberships (f : gset (Z * Z) → gset (Z * Z)) (s : Store) :
  consistent s → consistent (set_memberships f s).
Proof. intros [Hids Hedges Hacyc]. by split. Qed.

Lemma consistent_alter (f : UserGroup → UserGroup) (gid : Z) (s : Store) :
  consistent s → consistent (set_groups (alter f gid) s).
Proof.
  intros [Hids Hedges Hacyc]. split; cbn; [| |done].
  - intros g. rewrite dom_alter_L. apply Hids.
  - intros a b. rewrite dom_alter_L. apply Hedges.
Qed.

Lemma consistent_remove_edges (D : gset (Z * Z)) (s : Store) :
  consistent s → consistent (set_subgroup_edges (λ E, E ∖ D) s).
Proof.
  intros [Hids Hedges Hacyc]. split; cbn; [done| |].
  - intros a b [Hab _]%elem_of_difference. by eapply Hedges.
  - eapply acyclic_subseteq; [|done]. set_solver.
Qed.

Lemma consistent_add_edges (p : Z) (ids : list Z) (realm : Z) (s : Store) :
  consistent s →
  (∀ g, g ∈ ids → in_realm s realm g = true) →
  ¬ (p ∈ ids ∨ ∃ g, g ∈ ids ∧ tc (edge (subgroup_edges s)) g p) →
  consistent (set_subgroup_edges (λ E, E ∪ edges_from p ids) s).
Proof.
  intros [Hids Hedges Hacyc] Hall Hnot. split; cbn; [done| |].
  - intros a b [Hab | [_ Hb]%elem_of_edges_from]%elem_of_union.
    + by eapply Hedges.
    + eapply in_realm_dom. by apply Hall.
  - apply acyclic_add_edges; [done|].
    intros Hbelow. apply Hnot. apply below_iff in Hbelow.
    by setoid_rewrite elem_of_list_to_set in Hbelow.
Qed.

Lemma consistent_drop_group (gid : Z) (s : Store) :
  consistent s → consistent (drop_group gid s).
Proof.
  intros [Hids Hedges Hacyc]. split; cbn.
  - intros g Hg. apply Hids. rewrite dom_delete_L in Hg. set_solver.
  - intros a b [[_ Hb] Hab]%elem_of_filter. cbn in Hb.
    rewrite dom_delete_L. apply elem_of_difference. split; [by eapply Hedges|].
    by intros ->%elem_of_singleton.
  - eapply acyclic_subseteq; [|done]. intros e [_ He]%elem_of_filter. done.
Qed.

Lemma consistent_insert_group (g : UserGroup) (s : Store) :
  consistent s → consistent (insert_group (next_group_id s) g s).
Proof.
  intros [Hids Hedges Hacyc]. split; cbn; [| |done].
  - intros gid Hgid. rewrite dom_insert_L in Hgid.
    apply elem_of_union in Hgid as [->%elem_of_singleton | Hold]; [lia|].
    specialize (Hids gid Hold). lia.
  - intros a b Hab. rewrite dom_insert_L. apply elem_of_union. right.
    by eapply Hedges.
Qed.

(** A new anonymous group points at existing groups and nothing points at
    it. *)
Lemma consistent_new_anonymous (g : UserGroup) (members subgroups : list Z)
    (realm : Z) (s : Store) :
  consistent s →
  (∀ x, x ∈ subgroups → in_realm s realm x = true) →
  consistent
    (set_subgroup_edges (λ E, E ∪ edges_from (next_group_id s) subgroups)
       (set_memberships (λ m, m ∪ edges_from (next_group_id s) members)
          (insert_group (next_group_id s) g s))).
Proof.
  intros Hs Hall. pose proof Hs as [Hids Hedges Hacyc].
  pose proof (consistent_insert_group g s Hs) as [Hids' Hedges' _].
  split; cbn in *; [done| |].
  - intros a b [Hab | [_ Hb]%elem_of_edges_from]%elem_of_union; [by eapply Hedges'|].
    rewrite dom_insert_L. apply elem_of_union. right.
    eapply in_realm_dom. by apply Hall.
  - apply acyclic_add_fresh_source; [done| |].
    + intros ([a b] & Hb & Hab)%elem_of_map. cbn in Hb.
      specialize (Hids _ (Hedges _ _ Hab)). lia.
    + intros Hself. specialize (Hids _ (in_realm_dom _ _ _ (Hall _ Hself))). lia.
Qed.

Lemma preserves_ret {A} (a : A) : preserves (ret a).
Proof. by intros w Hw. Qed.

Lemma preserves_raise {A} (e : JsonableError) : preserves (raise (A := A) e).
Proof. by intros w Hw. Qed.

Lemma preserves_bind {A B} (m : M A) (k : A → M B) :
  preserves m → (∀ a, preserves (k a)) → preserves (bind m k).
Proof.
  intros Hm Hk w Hw. specialize (Hm w Hw). unfold bind.
  destruct (m w) as [[a|e] w']; cbn in *; [by apply Hk | done].
Qed.

Lemma preserves_atomic {A} (m : M A) : preserves m → preserves (atomic m).
Proof.
  intros Hm w Hw. specialize (Hm w Hw). unfold atomic.
  by destruct (m w) as [[a|e] w'].
Qed.

Lemma preserves_for_each {A} (xs : list A) (body : A → M unit) :
  (∀ x, preserves (body x)) → preserves (for_each xs body).
Proof.
  intros Hbody. induction xs as [|x xs IH]; [apply preserves_ret|].
  cbn [for_each]. by apply preserves_bind.
Qed.

(** A computation that leaves the rows alone. *)
Lemma preserves_read_only {A} (m : M A) :
  (∀ w, store (snd (m w)) = store w) → preserves m.
Proof. intros Hro w Hw. cbn. by rewrite Hro. Qed.

Lemma user_ids_to_users_preserves (ids : list Z) (realm : Z) :
  preserves (user_ids_to_users ids realm).
Proof. apply preserves_read_only. intros w. by rewrite user_ids_to_users_run. Qed.

Lemma access_user_group_by_id_preserves (gid : Z) (u : UserProfile) :
  preserves (access_user_group_by_id gid u).
Proof. apply preserves_read_only. intros w. by rewrite access_user_group_by_id_run. Qed.

Lemma check_user_group_name_preserves (name : string) :
  preserves (check_user_group_name name).
Proof. apply preserves_read_only. intros w. by rewrite check_user_group_name_pure. Qed.

Lemma alter_group_preserves (f : UserGroup → UserGroup) (gid : Z) :
  preserves (alter_group f gid).
Proof. intros w Hw. by apply consistent_alter. Qed.

Lemma access_user_group_for_setting_preserves (value : SettingValue.t)
    (u : UserProfile) (cfg : PermissionConfig) :
  preserves (access_user_group_for_setting value u cfg).
Proof.
  intros w Hw. unfold access_user_group_for_setting.
  unfold bind at 1, emit at 1. rewrite bind_query. cbn [store].
  destruct value as [gid|spec].
  - destruct (negb (in_realm _ _ _)); [done|].
    by destruct (negb (setting_group_permitted _ _ _ _)).
  - unfold bind at 1. rewrite user_ids_to_users_run. cbn [store].
    destruct (resolve_users _ _ _) as [us|e]; [|done].
    destruct (filter _ (SettingValue.direct_subgroups spec)) as [|missing rest] eqn:Hfilter;
      [|done].
    cbn. eapply consistent_new_anonymous; [done|].
    intros x Hx. destruct (in_realm (store w) (user_realm u) x) eqn:Hin; [done|].
    assert (x ∈ filter (λ g, in_realm (store w) (user_realm u) g = false)
                       (SettingValue.direct_subgroups spec)) as Hbad
      by by apply list_elem_of_filter.
    rewrite Hfilter in Hbad. by apply elem_of_nil in Hbad.
Qed.

Lemma check_add_user_group_preserves (realm : Z) (name : string)
    (initial : list UserProfile) (description : string) (settings : gmap string Z) :
  preserves (check_add_user_group realm name initial description settings).
Proof.
  intros w Hw. unfold check_add_user_group. rewrite bind_query.
  destruct (name_taken _ _ _); [done|]. cbn.
  by apply consistent_set_memberships, consistent_insert_group.
Qed.

Lemma add_user_group_settings_preserves (u : UserProfile)
    (setting : option SettingValue.raw) (items : list (string * PermissionConfig))
    (settings : gmap string Z) :
  preserves (add_user_group_settings u setting items settings).
Proof.
  revert settings. induction items as [|[setting_name cfg] items IH]; intros settings.
  { apply preserves_ret. }
  cbn [add_user_group_settings]. apply preserves_bind; [|done].
  unfold add_user_group_setting.
  destruct (request_settings_dict setting setting_name) as [[raw_value|]|];
    try apply preserves_ret.
  apply preserves_bind; [apply access_user_group_for_setting_preserves|].
  intros gid. apply preserves_ret.
Qed.

Lemma add_user_group_preserves (u : UserProfile) (name : string) (members : list Z)
    (description : string) (setting : option SettingValue.raw) :
  preserves (add_user_group u name members description setting).
Proof.
  unfold add_user_group.
  apply preserves_bind; [apply user_ids_to_users_preserves | intros user_profiles].
  apply preserves_bind; [apply check_user_group_name_preserves | intros cleaned].
  apply preserves_bind; [apply add_user_group_settings_preserves | intros settings].
  apply preserves_bind; [apply check_add_user_group_preserves | intros gid].
  apply preserves_ret.
Qed.

Lemma query_preserves : preserves query.
Proof. by apply preserves_read_only. Qed.

Lemma do_update_user_group_name_preserves (gid : Z) (name : string) :
  preserves (do_update_user_group_name gid name).
Proof.
  unfold do_update_user_group_name.
  apply preserves_bind; [apply query_preserves | intros s].
  destruct (groups s !! gid) as [g|]; [|apply preserves_raise].
  destruct (name_taken _ _ _); [apply preserves_raise | apply alter_group_preserves].
Qed.

Lemma edit_user_group_setting_preserves (u : UserProfile) (gid : Z)
    (setting : option SettingValue.raw) (item : string * PermissionConfig) :
  preserves (edit_user_group_setting u gid setting item).
Proof.
  destruct item as [setting_name cfg]. unfold edit_user_group_setting.
  destruct (request_settings_dict setting setting_name) as [[raw_value|]|];
    try apply preserves_ret.
  apply preserves_bind; [apply query_preserves | intros s].
  destruct (check_setting_value_changed _ _ _); [|apply preserves_ret].
  apply preserves_bind; [apply access_user_group_for_setting_preserves | intros value].
  unfold do_change_user_group_permission_setting.
  case_bool_decide; [apply alter_group_preserves | apply preserves_ret].
Qed.

Lemma edit_user_group_preserves (u : UserProfile) (gid : Z)
    (name description : option string) (setting : option SettingValue.raw) :
  preserves (edit_user_group u gid name description setting).
Proof.
  unfold edit_user_group. apply preserves_atomic.
  destruct (_ && _); [apply preserves_raise|].
  apply preserves_bind; [apply access_user_group_by_id_preserves | intros user_group].
  apply preserves_bind; [apply query_preserves | intros s].
  apply preserves_bind.
  { destruct name as [new_name|]; [|apply preserves_ret].
    case_bool_decide; [|apply preserves_ret].
    apply preserves_bind; [apply check_user_group_name_preserves | intros cleaned].
    apply do_update_user_group_name_preserves. }
  intros _. apply preserves_bind.
  { destruct description as [new_description|]; [|apply preserves_ret].
    case_bool_decide; [|apply preserves_ret].
    apply alter_group_preserves. }
  intros _. apply preserves_for_each. intros item.
  apply edit_user_group_setting_preserves.
Qed.

Lemma delete_user_group_preserves (u : UserProfile) (gid : Z) :
  preserves (delete_user_group u gid).
Proof.
  intros w Hw. pose proof (delete_user_group_result u gid w) as Hres. cbn in Hres.
  destruct (fst (delete_user_group u gid w)); rewrite Hres;
    [by apply consistent_drop_group | done].
Qed.

Lemma add_members_preserves (u : UserProfile) (gid : Z) (ids : list Z) :
  preserves (add_members_to_group_backend u gid ids).
Proof.
  intros w Hw. pose proof (add_members_result u gid ids w) as Hres. cbn in Hres.
  destruct (fst (add_members_to_group_backend u gid ids w)); rewrite Hres;
    [by apply consistent_set_memberships | done].
Qed.

Lemma remove_members_preserves (u : UserProfile) (gid : Z) (ids : list Z) :
  preserves (remove_members_from_group_backend u gid ids).
Proof.
  intros w Hw. pose proof (remove_members_result u gid ids w) as Hres. cbn in Hres.
  destruct (fst (remove_members_from_group_backend u gid ids w)); rewrite Hres;
    [by apply consistent_set_memberships | done].
Qed.

(** The one place where an edge between existing groups appears: it passed
    the cycle check. *)
Lemma add_subgroups_preserves (u : UserProfile) (p : Z) (ids : list Z) :
  preserves (add_subgroups_to_group_backend u p ids).
Proof.
  intros w Hw. pose proof (add_subgroups_result u p ids w) as Hres. cbn in Hres.
  destruct (fst (add_subgroups_to_group_backend u p ids w)).
  - destruct Hres as (-> & Hall & Hnot). by eapply consistent_add_edges.
  - by rewrite Hres.
Qed.

Lemma remove_subgroups_preserves (u : UserProfile) (p : Z) (ids : list Z) :
  preserves (remove_subgroups_from_group_backend u p ids).
Proof.
  intros w Hw. pose proof (remove_subgroups_result u p ids w) as Hres. cbn in Hres.
  destruct (fst (remove_subgroups_from_group_backend u p ids w)); rewrite Hres;
    [by apply consistent_remove_edges | done].
Qed.

Lemma compose_views_preserves (first second : M unit) :
  preserves first → preserves second → preserves (compose_views [first; second]).
Proof.
  intros Hfirst Hsecond. unfold compose_views. apply preserves_atomic.
  cbn [for_each]. apply preserves_bind; [done | intros _].
  apply preserves_bind; [done | intros _]. apply preserves_ret.
Qed.

Lemma handle_preserves (u : UserProfile) (request : Request) :
  preserves (handle u request).
Proof.
  destruct request; cbn [handle].
  - apply add_user_group_preserves.
  - apply edit_user_group_preserves.
  - apply delete_user_group_preserves.
  - unfold update_user_group_backend.
    destruct (_ && _); [apply preserves_raise|].
    apply compose_views_preserves;
      [apply add_members_preserves | apply remove_members_preserves].
  - unfold update_subgroups_of_user_group.
    destruct (_ && _); [apply preserves_raise|].
    apply compose_views_preserves;
      [apply add_subgroups_preserves | apply remove_subgroups_preserves].
  - apply add_members_preserves.
  - apply remove_members_preserves.
  - apply add_subgroups_preserves.
  - apply remove_subgroups_preserves.
Qed.

Lemma consistent_empty_store (user_table : gmap Z UserRow) (first_id : Z) :
  consistent (empty_store user_table first_id).
Proof.
  split; cbn.
  - intros gid. rewrite dom_empty_L. by intros ?%elem_of_empty.
  - intros a b ?%elem_of_empty. done.
  - intros g Hcycle.
    destruct Hcycle as [x y Hedge | x y z Hedge _];
      unfold edge in Hedge; by apply elem_of_empty in Hedge.
Qed.

Lemma reachable_consistent (w : World) : reachable w → consistent (store w).
Proof.
  induction 1 as [user_table first_id | w u request _ IH].
  - apply consistent_empty_store.
  - by apply handle_preserves.
Qed.

End Invariant.

(** C2.  In every world the service can reach, once a request (create, edit,
    delete, add or remove members, add or remove subgroups) has been served,
    no group is its own recursive subgroup: neither in the subgroup relation
    between named groups nor in the whole relation. *)
Theorem subgroup_relation_acyclic_after_mutation {C : Collaborators}
    (w : World) (user_profile : UserProfile) (request : Request) :
  reachable w →
  let out := handle user_profile request w in
  fst out = Ok tt →
  (∀ g, ¬ tc (Graph.edge (Graph.restrict (is_named (store (snd out)))
                                         (subgroup_edges (store (snd out))))) g g)
  ∧ (∀ g, ¬ tc (Graph.edge (subgroup_edges (store (snd out)))) g g).
Proof.
  intros Hreach out _.
  assert (consistent (store (snd out))) as [_ _ Hacyc].
  { apply reachable_consistent. by constructor. }
  split; [by apply acyclic_restrict | exact Hacyc].
Qed.

Lemma subgroup_relation_acyclic_after_mutation_witness :
  let out := handle (C := Sample.collaborators) Sample.alice (AddSubgroups 100 [101])
                    Sample.with_leads in
  (∀ g, ¬ tc (Graph.edge (Graph.restrict (is_named (store (snd out)))
                                         (subgroup_edges (store (snd out))))) g g)
  ∧ (∀ g, ¬ tc (Graph.edge (subgroup_edges (store (snd out)))) g g).
Proof.
  apply (subgroup_relation_acyclic_after_mutation (C := Sample.collaborators)
           Sample.with_leads Sample.alice (AddSubgroups 100 [101])).
  - unfold Sample.with_leads, Sample.with_eng, Sample.start.
    do 2 apply reachable_request. apply reachable_start.
  - vm_compute. reflexivity.
Defined.

(** * Further properties of the views *)

(** ** Parsing and comparing setting values *)

Lemma parse_dict_cases (members subgroups : list Z) :
  (members = [] ∧ ∃ g, subgroups = [g]
                       ∧ parse_group_setting_value (RawDict members subgroups) = GroupId g)
  ∨ (¬ (members = [] ∧ length subgroups = 1%nat)
     ∧ parse_group_setting_value (RawDict members subgroups)
       = Anonymous (mkAnon members subgroups)).
Proof.
  cbn [parse_group_setting_value].
  destruct (bool_decide (length members = 0%nat) && bool_decide (length subgroups = 1%nat))
    eqn:Hshape.
  - apply andb_true_iff in Hshape as [Hm%bool_decide_eq_true Hs%bool_decide_eq_true].
    apply nil_length_inv in Hm as ->.
    destruct subgroups as [|g0 [|? ?]]; try done. left. split; [done|]. by exists g0.
  - right. split; [|done]. intros [-> Hs]. by rewrite Hs in Hshape.
Qed.

(** X1.  [parse_group_setting_value] can be read backwards: it returns the
    plain id [g] exactly for the int [g] and for the dict with no members
    and the one subgroup [g]; it returns an anonymous spec exactly for a dict
    with those two lists that is not of that collapsed shape.  So no parsed
    spec ever has no members and exactly one subgroup. *)
Theorem parse_group_setting_value_inverse (raw_value : SettingValue.raw) :
  (∀ g, parse_group_setting_value raw_value = GroupId g
        ↔ raw_value = RawInt g ∨ raw_value = RawDict [] [g])
  ∧ (∀ spec, parse_group_setting_value raw_value = Anonymous spec
        ↔ raw_value = RawDict (SettingValue.direct_members spec)
                              (SettingValue.direct_subgroups spec)
          ∧ ¬ (SettingValue.direct_members spec = []
               ∧ length (SettingValue.direct_subgroups spec) = 1%nat)).
Proof.
  destruct raw_value as [n | members subgroups].
  - split.
    + intros g. cbn. split; [intros [= ->]; by left | by intros [[= ->] | [=]]].
    + intros spec. cbn. split; [done | by intros [[=] _]].
  - destruct (parse_dict_cases members subgroups)
      as [(-> & g0 & -> & ->) | [Hshape ->]].
    + split.
      * intros g. split; [intros [= ->]; by right | by intros [[=] | [= ->]]].
      * intros spec. split; [done|]. intros [[= <- <-] Hnot]. by destruct Hnot.
    + split.
      * intros g. split; [done|]. intros [[=] | [= -> ->]]. by destruct Hshape.
      * intros [m s]. cbn. split.
        -- by intros [= <- <-].
        -- by intros [[= -> ->] _].
Qed.

(** X2.  [are_both_setting_values_equal] is transitive; with its reflexivity
    and symmetry it is an equivalence on setting values. *)
Theorem are_both_setting_values_equal_trans (X Y Z : SettingValue.t) :
  are_both_setting_values_equal X Y = true →
  are_both_setting_values_equal Y Z = true →
  are_both_setting_values_equal X Z = true.
Proof.
  destruct X as [a|a], Y as [b|b], Z as [c|c]; try done.
  - intros ->%bool_decide_eq_true ->%bool_decide_eq_true. apply are_both_equal_refl.
  - rewrite !anonymous_equal_iff. intros [-> ->] [-> ->]. done.
Qed.

Lemma are_both_setting_values_equal_trans_witness :
  are_both_setting_values_equal
    (Anonymous (mkAnon [1; 2] [5])) (Anonymous (mkAnon [2; 1; 1] [5; 5])) = true.
Proof.
  apply (are_both_setting_values_equal_trans
           (Anonymous (mkAnon [1; 2] [5])) (Anonymous (mkAnon [2; 1] [5]))
           (Anonymous (mkAnon [2; 1; 1] [5; 5])));
    vm_compute; reflexivity.
Defined.

(** X3.  Against a setting that is the plain group [g], a request value
    compares equal after parsing exactly when it is the int [g] or the dict
    with no members and the single subgroup [g].  A dict that lists [g]
    twice is not collapsed and counts as a change, although it names the same
    set of subgroups. *)
Theorem unchanged_against_plain_group (g : Z) (raw_value : SettingValue.raw) :
  (settingChanged (GroupId g) (parse_group_setting_value raw_value) = false
   ↔ raw_value = RawInt g ∨ raw_value = RawDict [] [g])
  ∧ settingChanged (GroupId g) (parse_group_setting_value (RawDict [] [g; g])) = true.
Proof.
  split; [|reflexivity].
  unfold settingChanged. rewrite negb_false_iff.
  destruct raw_value as [n | members subgroups].
  - cbn. rewrite bool_decide_eq_true. split; [intros ->; by left|].
    by intros [[= ->] | [=]].
  - destruct (parse_dict_cases members subgroups)
      as [(-> & g0 & -> & ->) | [Hshape ->]]; cbn.
    + rewrite bool_decide_eq_true. split; [intros ->; by right|].
      by intros [[=] | [= ->]].
    + split; [done|]. intros [[=] | [= -> ->]]. by destruct Hshape.
Qed.

(** ** The single-list operations, step by step *)

Lemma atomic_ok_eq {A} (m : M A) (w w' : World) (a : A) :
  m w = (Ok a, w') → atomic m w = (Ok a, w').
Proof. unfold atomic. by intros ->. Qed.


Section OperationRuns.

Lemma resolve_users_ok_iff (s : Store) (realm : Z) (ids : list Z) :
  (∃ us, resolve_users s realm ids = Ok us)
  ↔ ∀ uid, uid ∈ ids → is_Some (known_user s realm uid).
Proof.
  induction ids as [|uid ids IH]; cbn [resolve_users].
  - split; [by intros _ uid ?%elem_of_nil | by eexists].
  - split.
    + intros [us Hus] x Hx.
      destruct (known_user s realm uid) as [u|] eqn:Hu; [|done].
      destruct (resolve_users s realm ids) as [us'|]; [|done].
      apply elem_of_cons in Hx as [-> | Hx]; [by rewrite Hu|].
      apply IH; [by eexists | done].
    + intros Hall. destruct (Hall uid) as [u ->]; [by left|].
      destruct IH as [_ [us ->]]; [intros; apply Hall; by right|]. by eexists.
Qed.

Lemma resolve_users_elem (s : Store) (realm : Z) (ids : list Z) (us : list UserProfile)
    (u : UserProfile) :
  resolve_users s realm ids = Ok us →
  u ∈ us ↔ ∃ uid, uid ∈ ids ∧ known_user s realm uid = Some u.
Proof.
  revert us. induction ids as [|uid ids IH]; intros us; cbn [resolve_users].
  - intros [= <-]. split; [by intros ?%elem_of_nil | by intros (? & ?%elem_of_nil & _)].
  - destruct (known_user s realm uid) as [u0|] eqn:Hu0; [|done].
    destruct (resolve_users s realm ids) as [us'|]; [|done].
    intros [= <-]. rewrite elem_of_cons, (IH us' eq_refl). split.
    + intros [-> | (x & Hx & Hknown)].
      * exists uid. split; [by left | done].
      * exists x. split; [by right | done].
    + intros (x & [-> | Hx]%elem_of_cons & Hknown).
      * left. congruence.
      * right. eauto.
Qed.

Lemma known_user_row (s : Store) (realm uid : Z) (u : UserProfile) :
  known_user s realm uid = Some u
  ↔ ∃ row, users s !! uid = Some row ∧ row_realm row = realm
           ∧ u = mkUser uid realm (row_is_bot row) (row_is_active row).
Proof.
  unfold known_user. destruct (users s !! uid) as [row|].
  - case_bool_decide as Hrealm.
    + split.
      * intros [= <-]. exists row. by rewrite Hrealm.
      * intros (row' & [= <-] & _ & ->). by rewrite Hrealm.
    + split; [done|]. by intros (row' & [= <-] & ? & _).
  - split; [done | by intros (row' & [=] & _)].
Qed.

(** The membership loop of [add_members_to_group_backend] finds a user
    exactly when one of the users is a direct member already. *)
Lemma find_existing_member (s : Store) (gid : Z) (us : list UserProfile) :
  find (λ m, bool_decide
               (user_id m ∈ py_set (filter (λ uid, uid ∈ direct_member_ids s gid)
                                           (user_id <$> us)))) us = None
  ↔ ∀ uid, uid ∈ user_id <$> us → (gid, uid) ∉ memberships s.
Proof.
  split.
  - intros Hnone uid (m & -> & Hm)%list_elem_of_fmap Hmember.
    eapply find_none in Hnone; [|by apply list_elem_of_In].
    apply bool_decide_eq_false in Hnone. apply Hnone.
    apply py_set_elem, list_elem_of_filter. split.
    + by apply elem_of_direct_member_ids.
    + apply list_elem_of_fmap. eauto.
  - intros Hnew. destruct (find _ us) as [m|] eqn:Hfind; [|done]. exfalso.
    apply find_some in Hfind as [Hm Hin]. apply list_elem_of_In in Hm.
    apply bool_decide_eq_true, py_set_elem, list_elem_of_filter in Hin as [Hin _].
    apply elem_of_direct_member_ids in Hin. eapply Hnew; [|done].
    apply list_elem_of_fmap. eauto.
Qed.

Lemma notify_ok (acting : UserProfile) (recipients : list UserProfile) (g : Z)
    (sub unsub : bool) (w : World) :
  ∃ w', notify_for_user_group_subscription_changes acting recipients g sub unsub w
        = (Ok tt, w').
Proof.
  unfold notify_for_user_group_subscription_changes. case_bool_decide; by eexists.
Qed.

Lemma add_members_run (u : UserProfile) (gid : Z) (ids : list Z) (w : World) :
  ids ≠ [] →
  let s := store w in
  let l1 := log w ++ [ReadGroup gid] in
  let l2 := l1 ++ [ReadUsers ids] in
  let l3 := l2 ++ [ReadMembers gid] in
  add_members_to_group_backend u gid ids w
  = if is_named s gid && in_realm s (user_realm u) gid
    then match resolve_users s (user_realm u) (remove_dups ids) with
         | Raised e => (Raised e, mkWorld s l2)
         | Ok us =>
             match find (λ m, bool_decide
                          (user_id m ∈ py_set (filter (λ uid, uid ∈ direct_member_ids s gid)
                                                      (user_id <$> us)))) us with
             | Some m => (Raised (AlreadyMember (user_id m)), mkWorld s l3)
             | None =>
                 notify_for_user_group_subscription_changes u us gid true false
                   (mkWorld (set_memberships (λ m, m ∪ edges_from gid (user_id <$> us)) s) l3)
             end
         end
    else (Raised InvalidUserGroup, mkWorld s l1).
Proof.
  intros Hne s l1 l2 l3. unfold add_members_to_group_backend.
  rewrite bool_decide_eq_false_2 by done. unfold atomic.
  unfold bind at 1. rewrite access_user_group_by_id_run. fold s l1.
  destruct (is_named s gid && in_realm s (user_realm u) gid); [|done].
  unfold bind at 1. rewrite user_ids_to_users_run. cbn [store log]. fold l2.
  destruct (resolve_users s (user_realm u) (remove_dups ids)) as [us|e]; [|done].
  unfold bind at 1. rewrite get_direct_memberships_of_users_run. cbn [store log]. fold l3.
  unfold bind at 1.
  rewrite (for_each_check
             (λ member_user, bool_decide (user_id member_user ∈ py_set _))
             (λ member_user, AlreadyMember (user_id member_user))).
  destruct (find _ us); [done|].
  unfold bind at 1. cbn [bulk_add_members_to_user_groups for_each].
  unfold bind at 1, update at 1, ret at 1. cbn [store log].
  match goal with
  | |- context [notify_for_user_group_subscription_changes ?a ?r ?g ?x ?y ?w0] =>
      destruct (notify_ok a r g x y w0) as [w' ->]
  end. done.
Qed.

Lemma remove_members_run (u : UserProfile) (gid : Z) (ids : list Z) (w : World) :
  ids ≠ [] →
  let s := store w in
  let l1 := log w ++ [ReadUsers ids] in
  let l2 := l1 ++ [ReadGroup gid] in
  let l3 := l2 ++ [ReadMembers gid] in
  remove_members_from_group_backend u gid ids w
  = match resolve_users s (user_realm u) (remove_dups ids) with
    | Raised e => (Raised e, mkWorld s l1)
    | Ok us =>
        if is_named s gid && in_realm s (user_realm u) gid
        then match find (λ member, bool_decide (member ∉ direct_member_ids s gid)) ids with
             | Some member => (Raised (NoSuchMember member), mkWorld s l3)
             | None =>
                 notify_for_user_group_subscription_changes u us gid false true
                   (mkWorld (set_memberships (λ m, m ∖ edges_from gid (user_id <$> us)) s) l3)
             end
        else (Raised InvalidUserGroup, mkWorld s l2)
    end.
Proof.
  intros Hne s l1 l2 l3. unfold remove_members_from_group_backend.
  rewrite bool_decide_eq_false_2 by done. unfold atomic.
  unfold bind at 1. rewrite user_ids_to_users_run. fold s l1.
  destruct (resolve_users s (user_realm u) (remove_dups ids)) as [us|e]; [|done].
  unfold bind at 1. rewrite access_user_group_by_id_run. cbn [store log]. fold l2.
  destruct (is_named s gid && in_realm s (user_realm u) gid); [|done].
  unfold bind at 1.
  unfold get_user_group_direct_member_ids at 1.
  unfold bind at 1, emit at 1, bind at 1, query at 1, ret at 1. cbn [store log]. fold l3.
  unfold bind at 1.
  rewrite (for_each_check (λ member, bool_decide (member ∉ _)) NoSuchMember).
  destruct (find _ ids); [done|].
  unfold bind at 1. cbn [bulk_remove_members_from_user_groups for_each].
  unfold bind at 1, update at 1, ret at 1. cbn [store log].
  match goal with
  | |- context [notify_for_user_group_subscription_changes ?a ?r ?g ?x ?y ?w0] =>
      destruct (notify_ok a r g x y w0) as [w' ->]
  end. done.
Qed.

End OperationRuns.

(** ** Who is told about a membership change *)

Section Notifications.

Lemma notified_app (l1 l2 : list Event) (uid : Z) (notice : option Notice) :
  notified (l1 ++ l2) uid notice ↔ notified l1 uid notice ∨ notified l2 uid notice.
Proof.
  unfold notified. split.
  - intros (ns & [H|H]%elem_of_app & Hin); [left | right]; eauto.
  - intros [(ns & H & Hin) | (ns & H & Hin)]; exists ns; split; try done;
      apply elem_of_app; auto.
Qed.

Lemma notified_nil (uid : Z) (notice : option Notice) : ¬ notified [] uid notice.
Proof. by intros (ns & ?%elem_of_nil & _). Qed.

(** What [notify_for_user_group_subscription_changes] adds to the log. *)
Lemma notify_log (acting : UserProfile) (recipients : list UserProfile) (g : Z)
    (sub unsub : bool) (w : World) :
  let out := notify_for_user_group_subscription_changes acting recipients g sub unsub w in
  fst out = Ok tt
  ∧ store (snd out) = store w
  ∧ ∃ l', log (snd out) = log w ++ l'
          ∧ ∀ uid notice,
              notified l' uid notice
              ↔ notice = (if unsub then Some RemovedYou
                          else if sub then Some AddedYou else None)
                ∧ ∃ r, r ∈ recipients ∧ user_id r = uid ∧ uid ≠ user_id acting
                       ∧ is_bot r = false ∧ is_active r = true.
Proof.
  intros out. subst out. unfold notify_for_user_group_subscription_changes.
  set (message := if unsub then Some RemovedYou else if sub then Some AddedYou else None).
  set (chosen := filter (λ u, user_id u ≠ user_id acting ∧ is_bot u = false
                              ∧ is_active u = true) recipients).
  assert (∀ uid notice,
            (uid, notice) ∈ (λ u, (user_id u, message)) <$> chosen
            ↔ notice = message
              ∧ ∃ r, r ∈ recipients ∧ user_id r = uid ∧ uid ≠ user_id acting
                     ∧ is_bot r = false ∧ is_active r = true) as Hchosen.
  { intros uid notice. rewrite list_elem_of_fmap. subst chosen. split.
    - intros (r & [= -> ->] & [(Hne & Hbot & Hactive) Hr]%list_elem_of_filter).
      split; [done|]. by exists r.
    - intros (-> & r & Hr & <- & Hne & Hbot & Hactive). exists r. split; [done|].
      by apply list_elem_of_filter. }
  case_bool_decide as Hsome; cbn [fst snd store log emit ret].
  - split; [done|]. split; [done|]. eexists. split; [done|].
    intros uid notice. rewrite <- Hchosen. unfold notified. split.
    + by intros (ns & [= <-]%list_elem_of_singleton & Hin).
    + intros Hin. eexists. split; [by apply list_elem_of_singleton | done].
  - split; [done|]. split; [done|]. exists []. split; [by rewrite app_nil_r|].
    intros uid notice. rewrite <- Hchosen. split; [by intros ?%notified_nil|].
    intros Hin. exfalso. apply Hsome.
    destruct ((λ u, (user_id u, message)) <$> chosen); [by apply elem_of_nil in Hin|].
    cbn. lia.
Qed.

End Notifications.

(** ** Adding and removing members *)

Section MemberViews.

Lemma resolved_recipient (s : Store) (realm : Z) (ids : list Z) (us : list UserProfile)
    (acting : UserProfile) (uid : Z) :
  resolve_users s realm (remove_dups ids) = Ok us →
  (∃ r, r ∈ us ∧ user_id r = uid ∧ uid ≠ user_id acting
        ∧ is_bot r = false ∧ is_active r = true)
  ↔ uid ∈ ids ∧ notifiable s acting uid.
Proof.
  intros Hus. unfold notifiable. split.
  - intros (r & Hr & <- & Hne & Hbot & Hactive).
    apply (resolve_users_elem _ _ _ _ _ Hus) in Hr as (x & Hx & Hknown).
    rewrite elem_of_remove_dups in Hx.
    apply known_user_row in Hknown as (row & Hrow & _ & ->). cbn in *.
    split; [done|]. split; [done|]. by exists row.
  - intros (Hin & Hne & row & Hrow & Hbot & Hactive).
    assert (is_Some (known_user s realm uid)) as [r Hknown].
    { eapply resolve_users_ok_iff; [by eexists|]. by rewrite elem_of_remove_dups. }
    exists r. split.
    { apply (resolve_users_elem _ _ _ _ _ Hus). exists uid.
      split; [by rewrite elem_of_remove_dups | done]. }
    apply known_user_row in Hknown as (row' & Hrow' & _ & ->). cbn.
    assert (row' = row) as -> by congruence. done.
Qed.

Lemma notified_lookups (l : list Event) (uid : Z) (notice : option Notice) :
  (∀ ev, ev ∈ l → ∀ ns, ev ≠ Sent ns) → ¬ notified l uid notice.
Proof. intros Hnone (ns & Hin & _). by eapply Hnone. Qed.

Lemma find_first {A} (P : A → bool) (pre post : list A) (x : A) :
  (∀ y, y ∈ pre → P y = false) → P x = true → find P (pre ++ x :: post) = Some x.
Proof.
  intros Hpre Hx. induction pre as [|y pre IH]; cbn.
  - by rewrite Hx.
  - rewrite (Hpre y) by by left. apply IH. intros z Hz. apply Hpre. by right.
Qed.

Lemma find_none_iff {A} (P : A → bool) (l : list A) :
  find P l = None ↔ ∀ x, x ∈ l → P x = false.
Proof.
  split.
  - intros Hnone x Hx. eapply find_none; [done | by apply list_elem_of_In].
  - intros Hall. destruct (find P l) as [x|] eqn:Hfind; [|done].
    apply find_some in Hfind as [Hx HP]. apply list_elem_of_In in Hx.
    rewrite (Hall x Hx) in HP. done.
Qed.

Lemma add_members_ok_store (u : UserProfile) (gid : Z) (ids : list Z) (w : World) :
  fst (add_members_to_group_backend u gid ids w) = Ok tt →
  store (snd (add_members_to_group_backend u gid ids w))
  = set_memberships (λ m, m ∪ edges_from gid ids) (store w).
Proof.
  intros Hok. pose proof (add_members_result u gid ids w) as Hres. cbn in Hres.
  by rewrite Hok in Hres.
Qed.

Lemma remove_members_ok_store (u : UserProfile) (gid : Z) (ids : list Z) (w : World) :
  fst (remove_members_from_group_backend u gid ids w) = Ok tt →
  store (snd (remove_members_from_group_backend u gid ids w))
  = set_memberships (λ m, m ∖ edges_from gid ids) (store w).
Proof.
  intros Hok. pose proof (remove_members_result u gid ids w) as Hres. cbn in Hres.
  by rewrite Hok in Hres.
Qed.

(** X4.  [add_members_to_group_backend] succeeds on a non-empty list exactly
    when the group resolves for the caller, every id resolves to a user of
    the realm and no id is a direct member yet; it then adds exactly the
    listed ids as members of the group. *)
Theorem add_members_succeeds_iff
    (user_profile : UserProfile) (user_group_id : Z) (members : list Z) (w : World) :
  members ≠ [] →
  let s := store w in
  let out := add_members_to_group_backend user_profile user_group_id members w in
  (fst out = Ok tt
   ↔ is_named s user_group_id && in_realm s (user_realm user_profile) user_group_id = true
     ∧ (∀ uid, uid ∈ members → is_Some (known_user s (user_realm user_profile) uid))
     ∧ (∀ uid, uid ∈ members → (user_group_id, uid) ∉ memberships s))
  ∧ (fst out = Ok tt →
     store (snd out)
     = set_memberships (λ m, m ∪ edges_from user_group_id members) s).
Proof.
  intros Hne s out. split; [|apply add_members_ok_store].
  subst out. rewrite add_members_run by done. fold s.
  destruct (is_named s user_group_id && in_realm s (user_realm user_profile) user_group_id).
  2:{ split; [done | by intros [? _]]. }
  destruct (resolve_users s (user_realm user_profile) (remove_dups members))
    as [us|e] eqn:Hus.
  2:{ split; [done|]. intros (_ & Hall & _).
      assert (∃ us, resolve_users s (user_realm user_profile) (remove_dups members) = Ok us)
        as [us Hok]; [|congruence].
      apply resolve_users_ok_iff. intros uid Huid. apply Hall.
      by rewrite elem_of_remove_dups in Huid. }
  assert (∀ uid, uid ∈ members → is_Some (known_user s (user_realm user_profile) uid))
    as Hall.
  { intros uid Huid. eapply resolve_users_ok_iff; [by eexists|].
    by rewrite elem_of_remove_dups. }
  pose proof (find_existing_member s user_group_id us) as Hfind.
  rewrite (resolve_users_ids _ _ _ _ Hus) in Hfind.
  setoid_rewrite elem_of_remove_dups in Hfind.
  rewrite (resolve_users_ids _ _ _ _ Hus).
  destruct (find _ us) as [m|].
  - split; [done|]. intros (_ & _ & Hnew). by apply Hfind in Hnew.
  - match goal with
    | |- context [notify_for_user_group_subscription_changes ?a ?r ?g ?x ?y ?w0] =>
        destruct (notify_log a r g x y w0) as (-> & _)
    end.
    split; [|done]. intros _. split; [done|]. split; [done|]. by apply Hfind.
Qed.

Lemma add_members_succeeds_iff_witness :
  let s := store Sample.with_leads in
  let out := add_members_to_group_backend Sample.alice 101 [2] Sample.with_leads in
  (fst out = Ok tt
   ↔ is_named s 101 && in_realm s (user_realm Sample.alice) 101 = true
     ∧ (∀ uid, uid ∈ [2] → is_Some (known_user s (user_realm Sample.alice) uid))
     ∧ (∀ uid, uid ∈ [2] → (101, uid) ∉ memberships s))
  ∧ (fst out = Ok tt →
     store (snd out) = set_memberships (λ m, m ∪ edges_from 101 [2]) s).
Proof.
  apply (add_members_succeeds_iff Sample.alice 101 [2] Sample.with_leads). discriminate.
Defined.

(** X5.  [remove_members_from_group_backend] succeeds on a non-empty list
    exactly when every id resolves to a user of the realm, the group resolves
    for the caller and every id is a direct member; it then removes exactly
    the listed ids.  When the lookups succeed but some id is not a member,
    the error names the first such id of the list and no row changes. *)
Theorem remove_members_succeeds_iff
    (user_profile : UserProfile) (user_group_id : Z) (members : list Z) (w : World) :
  members ≠ [] →
  let s := store w in
  let resolved :=
    (∀ uid, uid ∈ members → is_Some (known_user s (user_realm user_profile) uid))
    ∧ is_named s user_group_id && in_realm s (user_realm user_profile) user_group_id = true in
  let out := remove_members_from_group_backend user_profile user_group_id members w in
  (fst out = Ok tt
   ↔ resolved ∧ ∀ uid, uid ∈ members → (user_group_id, uid) ∈ memberships s)
  ∧ (fst out = Ok tt →
     store (snd out)
     = set_memberships (λ m, m ∖ edges_from user_group_id members) s)
  ∧ (∀ pre x post,
       resolved →
       members = pre ++ x :: post →
       (∀ y, y ∈ pre → (user_group_id, y) ∈ memberships s) →
       (user_group_id, x) ∉ memberships s →
       fst out = Raised (NoSuchMember x) ∧ store (snd out) = s).
Proof.
  intros Hne s resolved out.
  split; [|split; [apply remove_members_ok_store|]].
  - subst out resolved. rewrite remove_members_run by done. fold s.
    destruct (resolve_users s (user_realm user_profile) (remove_dups members))
      as [us|e] eqn:Hus.
    2:{ split; [done|]. intros [[Hall _] _].
        assert (∃ us, resolve_users s (user_realm user_profile) (remove_dups members)
                      = Ok us) as [us Hok]; [|congruence].
        apply resolve_users_ok_iff. intros uid Huid. apply Hall.
        by rewrite elem_of_remove_dups in Huid. }
    assert (∀ uid, uid ∈ members → is_Some (known_user s (user_realm user_profile) uid))
      as Hall.
    { intros uid Huid. eapply resolve_users_ok_iff; [by eexists|].
      by rewrite elem_of_remove_dups. }
    destruct (is_named s user_group_id
              && in_realm s (user_realm user_profile) user_group_id).
    2:{ split; [done | by intros [[_ ?] _]]. }
    destruct (find _ members) as [x|] eqn:Hfind.
    + split; [done|]. intros [_ Hmembers]. exfalso.
      apply find_some in Hfind as [Hx Hnot]. apply list_elem_of_In in Hx.
      apply bool_decide_eq_true in Hnot. apply Hnot.
      by apply elem_of_direct_member_ids, Hmembers.
    + match goal with
      | |- context [notify_for_user_group_subscription_changes ?a ?r ?g ?x ?y ?w0] =>
          destruct (notify_log a r g x y w0) as (-> & _)
      end.
      split; [|done]. intros _. split; [done|]. intros uid Huid.
      eapply find_none_iff in Hfind; [|done].
      apply bool_decide_eq_false in Hfind. apply elem_of_direct_member_ids.
      by apply dec_stable.
  - intros pre x post [Hall Haccess] Hsplit Hpre Hx.
    subst out. rewrite remove_members_run by done. fold s.
    destruct (resolve_users_ok_iff s (user_realm user_profile) (remove_dups members))
      as [_ [us ->]].
    { intros uid Huid. apply Hall. by rewrite elem_of_remove_dups in Huid. }
    rewrite Haccess, Hsplit.
    rewrite (find_first _ pre post x); [done| |].
    + intros y Hy. apply bool_decide_eq_false. intros Hnot. apply Hnot.
      by apply elem_of_direct_member_ids, Hpre.
    + apply bool_decide_eq_true. by rewrite elem_of_direct_member_ids.
Qed.

Lemma remove_members_succeeds_iff_witness :
  let s := store Sample.with_eng in
  let resolved :=
    (∀ uid, uid ∈ [1; 2] → is_Some (known_user s (user_realm Sample.alice) uid))
    ∧ is_named s 100 && in_realm s (user_realm Sample.alice) 100 = true in
  let out := remove_members_from_group_backend Sample.alice 100 [1; 2] Sample.with_eng in
  (fst out = Ok tt ↔ resolved ∧ ∀ uid, uid ∈ [1; 2] → (100, uid) ∈ memberships s)
  ∧ (fst out = Ok tt →
     store (snd out) = set_memberships (λ m, m ∖ edges_from 100 [1; 2]) s)
  ∧ (∀ pre x post,
       resolved →
       [1; 2] = pre ++ x :: post →
       (∀ y, y ∈ pre → (100, y) ∈ memberships s) →
       (100, x) ∉ memberships s →
       fst out = Raised (NoSuchMember x) ∧ store (snd out) = s).
Proof.
  apply (remove_members_succeeds_iff Sample.alice 100 [1; 2] Sample.with_eng). discriminate.
Defined.

Lemma notified_after_lookups (l0 l : list Event) (uid : Z) (notice : option Notice) :
  (∀ ev, ev ∈ l0 → ∀ ns, ev ≠ Sent ns) →
  notified (l0 ++ l) uid notice ↔ notified l uid notice.
Proof.
  intros Hnone. rewrite notified_app. split; [|by right].
  intros [Hl0 | Hl]; [|done]. by apply notified_lookups in Hl0.
Qed.

(** X6.  Who is told.  After [add_members_to_group_backend] or
    [remove_members_from_group_backend] the log has a message for a user
    exactly when the request succeeded and the user is one of the listed ids,
    is not the acting user, is not a bot and is active; the text is the one for
    an addition, respectively a removal.  A request that fails tells nobody. *)
Theorem member_views_notifications
    (user_profile : UserProfile) (user_group_id : Z) (members : list Z) (w : World) :
  (let out := add_members_to_group_backend user_profile user_group_id members w in
   ∃ l', log (snd out) = log w ++ l'
         ∧ ∀ uid notice,
             notified l' uid notice
             ↔ fst out = Ok tt ∧ notice = Some AddedYou
               ∧ uid ∈ members ∧ notifiable (store w) user_profile uid)
  ∧ (let out := remove_members_from_group_backend user_profile user_group_id members w in
     ∃ l', log (snd out) = log w ++ l'
           ∧ ∀ uid notice,
               notified l' uid notice
               ↔ fst out = Ok tt ∧ notice = Some RemovedYou
                 ∧ uid ∈ members ∧ notifiable (store w) user_profile uid).
Proof.
  assert (∀ a b c : Event, (∀ ns, a ≠ Sent ns) → (∀ ns, b ≠ Sent ns) →
            (∀ ns, c ≠ Sent ns) → ∀ ev, ev ∈ [a; b; c] → ∀ ns, ev ≠ Sent ns) as Hthree.
  { intros a b c Ha Hb Hc ev Hev ns.
    repeat (apply elem_of_cons in Hev as [-> | Hev]); [done..|].
    by apply elem_of_nil in Hev. }
  split.
  - destruct (decide (members = [])) as [-> | Hne].
    { exists []. split; [by rewrite app_nil_r|]. intros uid notice.
      split; [by intros ?%notified_nil | by intros (_ & _ & ?%elem_of_nil & _)]. }
    cbv zeta. rewrite add_members_run by done.
    destruct (is_named _ _ && in_realm _ _ _).
    2:{ eexists. split; [done|]. intros uid notice. split; [|by intros [? _]].
        intros Hn. exfalso. revert Hn. apply notified_lookups.
        by intros ev ->%list_elem_of_singleton. }
    destruct (resolve_users _ _ _) as [us|e] eqn:Hus.
    2:{ exists [ReadGroup user_group_id; ReadUsers members].
        split; [by rewrite <- !app_assoc|]. intros uid notice. split; [|by intros [? _]].
        intros Hn. exfalso. revert Hn. apply notified_lookups.
        intros ev [-> | ->%list_elem_of_singleton]%elem_of_cons; done. }
    destruct (find _ us) as [m|].
    { exists [ReadGroup user_group_id; ReadUsers members; ReadMembers user_group_id].
      split; [by rewrite <- !app_assoc|]. intros uid notice. split; [|by intros [? _]].
      intros Hn. exfalso. revert Hn. apply notified_lookups. by apply Hthree. }
    match goal with
    | |- context [notify_for_user_group_subscription_changes ?a ?r ?g ?x ?y ?w0] =>
        destruct (notify_log a r g x y w0) as (-> & _ & l'' & -> & Hsent)
    end.
    exists ([ReadGroup user_group_id; ReadUsers members; ReadMembers user_group_id] ++ l'').
    cbn [log]. split; [by rewrite <- !app_assoc|]. intros uid notice.
    rewrite notified_after_lookups by by apply Hthree.
    rewrite Hsent, (resolved_recipient _ _ _ _ _ _ Hus). cbn [store]. tauto.
  - destruct (decide (members = [])) as [-> | Hne].
    { exists []. split; [by rewrite app_nil_r|]. intros uid notice.
      split; [by intros ?%notified_nil | by intros (_ & _ & ?%elem_of_nil & _)]. }
    cbv zeta. rewrite remove_members_run by done.
    destruct (resolve_users _ _ _) as [us|e] eqn:Hus.
    2:{ eexists. split; [done|]. intros uid notice. split; [|by intros [? _]].
        intros Hn. exfalso. revert Hn. apply notified_lookups.
        by intros ev ->%list_elem_of_singleton. }
    destruct (is_named _ _ && in_realm _ _ _).
    2:{ exists [ReadUsers members; ReadGroup user_group_id].
        split; [by rewrite <- !app_assoc|]. intros uid notice. split; [|by intros [? _]].
        intros Hn. exfalso. revert Hn. apply notified_lookups.
        intros ev [-> | ->%list_elem_of_singleton]%elem_of_cons; done. }
    destruct (find _ members) as [m|].
    { exists [ReadUsers members; ReadGroup user_group_id; ReadMembers user_group_id].
      split; [by rewrite <- !app_assoc|]. intros uid notice. split; [|by intros [? _]].
      intros Hn. exfalso. revert Hn. apply notified_lookups. by apply Hthree. }
    match goal with
    | |- context [notify_for_user_group_subscription_changes ?a ?r ?g ?x ?y ?w0] =>
        destruct (notify_log a r g x y w0) as (-> & _ & l'' & -> & Hsent)
    end.
    exists ([ReadUsers members; ReadGroup user_group_id; ReadMembers user_group_id] ++ l'').
    cbn [log]. split; [by rewrite <- !app_assoc|]. intros uid notice.
    rewrite notified_after_lookups by by apply Hthree.
    rewrite Hsent, (resolved_recipient _ _ _ _ _ _ Hus). cbn [store]. tauto.
Qed.

Lemma resolve_users_set_memberships (f : gset (Z * Z) → gset (Z * Z)) (s : Store)
    (realm : Z) (ids : list Z) :
  resolve_users (set_memberships f s) realm ids = resolve_users s realm ids.
Proof.
  induction ids as [|uid ids IH]; [done|]. cbn [resolve_users]. rewrite IH.
  reflexivity.
Qed.

Lemma union_then_difference (A m : gset (Z * Z)) (s : Store) :
  memberships s = m → (∀ e, e ∈ A → e ∉ m) →
  set_memberships (λ m, m ∖ A) (set_memberships (λ m, m ∪ A) s) = s.
Proof.
  intros <- Hfresh. destruct s as [us gs ms es n]. unfold set_memberships. cbn in *.
  f_equal. apply set_eq. intros e. rewrite elem_of_difference, elem_of_union.
  split; [by intros [[?|?] ?] | intros He; split; [by left | by intros ?%Hfresh]].
Qed.

(** What a served addition tells about the world before it. *)
Lemma add_members_ok_inv (u : UserProfile) (gid : Z) (ids : list Z) (w : World) :
  ids ≠ [] →
  fst (add_members_to_group_backend u gid ids w) = Ok tt →
  is_named (store w) gid && in_realm (store w) (user_realm u) gid = true
  ∧ (∃ us, resolve_users (store w) (user_realm u) (remove_dups ids) = Ok us)
  ∧ (∀ uid, uid ∈ ids → (gid, uid) ∉ memberships (store w)).
Proof.
  intros Hne. rewrite add_members_run by done.
  destruct (is_named _ _ && in_realm _ _ _); [|done].
  destruct (resolve_users _ _ _) as [us|e] eqn:Hus; [|done].
  pose proof (find_existing_member (store w) gid us) as Hfind.
  rewrite (resolve_users_ids _ _ _ _ Hus) in Hfind.
  setoid_rewrite elem_of_remove_dups in Hfind.
  rewrite (resolve_users_ids _ _ _ _ Hus).
  destruct (find _ us) as [m|]; [done|]. intros _.
  split; [done|]. split; [by eexists | by apply Hfind].
Qed.

(** X7.  Removing the members a request has just added gives back the store
    the request found: [remove_members_from_group_backend], run with the same
    list after a served [add_members_to_group_backend], is served and leaves
    every row as it was before the addition. *)
Theorem add_then_remove_members_round_trip
    (user_profile : UserProfile) (user_group_id : Z) (members : list Z) (w : World) :
  let added := add_members_to_group_backend user_profile user_group_id members w in
  fst added = Ok tt →
  let removed :=
    remove_members_from_group_backend user_profile user_group_id members (snd added) in
  fst removed = Ok tt ∧ store (snd removed) = store w.
Proof.
  intros added Hok removed. subst added removed.
  destruct (decide (members = [])) as [-> | Hne]; [done|].
  destruct (add_members_ok_inv _ _ _ _ Hne Hok) as (Haccess & [us Hus] & Hnew).
  pose proof (add_members_ok_store _ _ _ _ Hok) as Hstore.
  destruct (add_members_to_group_backend user_profile user_group_id members w)
    as [r [s1 l1]]. cbn [fst snd store] in *. subst s1.
  rewrite remove_members_run by done. cbn [store log].
  rewrite resolve_users_set_memberships, Hus.
  change (is_named (set_memberships ?f ?s) ?g) with (is_named s g).
  change (in_realm (set_memberships ?f ?s) ?r ?g) with (in_realm s r g).
  rewrite Haccess.
  assert (find (λ member, bool_decide
             (member ∉ direct_member_ids
                (set_memberships (λ m, m ∪ edges_from user_group_id members) (store w))
                user_group_id)) members = None) as ->.
  { apply find_none_iff. intros x Hx. apply bool_decide_eq_false. intros Hnot.
    apply Hnot, elem_of_direct_member_ids. cbn. apply elem_of_union. right.
    by apply elem_of_edges_from. }
  match goal with
  | |- context [notify_for_user_group_subscription_changes ?a ?r ?g ?x ?y ?w0] =>
      destruct (notify_log a r g x y w0) as (-> & -> & _)
  end.
  split; [done|]. cbn [store].
  rewrite (resolve_users_ids _ _ _ _ Hus), edges_from_remove_dups.
  apply (union_then_difference _ (memberships (store w))); [done|].
  intros [a b] [-> Hb]%elem_of_edges_from. by apply Hnew.
Qed.

Lemma add_then_remove_members_round_trip_witness :
  let added := add_members_to_group_backend Sample.alice 101 [2] Sample.with_leads in
  let removed := remove_members_from_group_backend Sample.alice 101 [2] (snd added) in
  fst removed = Ok tt ∧ store (snd removed) = store Sample.with_leads.
Proof.
  apply (add_then_remove_members_round_trip Sample.alice 101 [2] Sample.with_leads).
  vm_compute. reflexivity.
Defined.

End MemberViews.

(** ** Adding and removing subgroups *)

Section SubgroupViews.
Import Graph.

(** [add_subgroups_to_group_backend] with the supergroup and the candidates
    resolved: first the candidates are looked for among the direct subgroups,
    then the cycle check is made. *)
Lemma add_subgroups_run_checks (u : UserProfile) (p : Z) (ids : list Z) (w : World) :
  ids ≠ [] →
  is_named (store w) p && in_realm (store w) (user_realm u) p = true →
  (∀ g, g ∈ ids → in_realm (store w) (user_realm u) g = true) →
  let E := subgroup_edges (store w) in
  let recursive := recursive_subgroup_ids E (list_to_set ids) in
  let l := (log w ++ [Locked (recursive ∪ {[p]})]) ++ [ReadGroup p] in
  add_subgroups_to_group_backend u p ids w
  = match find (λ g, bool_decide (g ∈ direct_subgroup_ids E p)) (remove_dups ids) with
    | Some g => (Raised (AlreadySubgroup g), mkWorld (store w) l)
    | None =>
        if bool_decide (p ∈ recursive)
        then (Raised (AlreadySubgroupOfPassed p), mkWorld (store w) l)
        else (Ok tt, mkWorld (set_subgroup_edges (λ E, E ∪ edges_from p ids) (store w)) l)
    end.
Proof.
  intros Hne Haccess Hall E recursive l.
  unfold add_subgroups_to_group_backend.
  rewrite bool_decide_eq_false_2 by done.
  rewrite lock_subgroups_run by done. fold E recursive.
  unfold atomic. unfold bind at 1. unfold existing_direct_subgroup_ids at 1.
  unfold bind at 1. unfold query at 1. unfold ret at 1. cbn [supergroup store].
  unfold bind at 1. cbn [direct_subgroups recursive_subgroups].
  rewrite (for_each_check (λ group, bool_decide (group ∈ direct_subgroup_ids E p))
                          AlreadySubgroup).
  destruct (find _ (remove_dups ids)) as [g|]; [done|].
  case_bool_decide; [done|].
  unfold add_subgroups_to_user_group, update. cbn [store log].
  unfold set_subgroup_edges. by rewrite edges_from_remove_dups.
Qed.

Lemma remove_subgroups_run (u : UserProfile) (p : Z) (ids : list Z) (w : World) :
  ids ≠ [] →
  is_named (store w) p && in_realm (store w) (user_realm u) p = true →
  (∀ g, g ∈ ids → in_realm (store w) (user_realm u) g = true) →
  let E := subgroup_edges (store w) in
  let recursive := recursive_subgroup_ids E (list_to_set ids) in
  let l := (log w ++ [Locked (recursive ∪ {[p]})]) ++ [ReadGroup p] in
  remove_subgroups_from_group_backend u p ids w
  = match find (λ g, bool_decide (g ∉ direct_subgroup_ids E p)) (remove_dups ids) with
    | Some g => (Raised (NotSubgroup g), mkWorld (store w) l)
    | None => (Ok tt, mkWorld (set_subgroup_edges (λ E, E ∖ edges_from p ids) (store w)) l)
    end.
Proof.
  intros Hne Haccess Hall E recursive l.
  unfold remove_subgroups_from_group_backend.
  rewrite bool_decide_eq_false_2 by done.
  rewrite lock_subgroups_run by done. fold E recursive.
  unfold atomic. unfold bind at 1. unfold existing_direct_subgroup_ids at 1.
  unfold bind at 1. unfold query at 1. unfold ret at 1. cbn [supergroup store].
  unfold bind at 1. cbn [direct_subgroups recursive_subgroups].
  rewrite (for_each_check (λ group, bool_decide (group ∉ direct_subgroup_ids E p))
                          NotSubgroup).
  destruct (find _ (remove_dups ids)) as [g|]; [done|].
  unfold remove_subgroups_from_user_group, update. cbn [store log].
  unfold set_subgroup_edges. by rewrite edges_from_remove_dups.
Qed.

(** X8.  In [add_subgroups_to_group_backend] the conflict check comes before
    the cycle check: with the supergroup and every candidate resolved, a
    candidate that is a direct subgroup already makes the request fail with
    "already a subgroup" for such a candidate, whether or not the addition
    would also close a cycle, and no row changes. *)
Theorem add_subgroups_conflict_first
    (user_profile : UserProfile) (p : Z) (ids : list Z) (w : World) :
  is_named (store w) p && in_realm (store w) (user_realm user_profile) p = true →
  (∀ g, g ∈ ids → in_realm (store w) (user_realm user_profile) g = true) →
  (∃ g, g ∈ ids ∧ (p, g) ∈ subgroup_edges (store w)) →
  let out := add_subgroups_to_group_backend user_profile p ids w in
  ∃ g, g ∈ ids ∧ (p, g) ∈ subgroup_edges (store w)
       ∧ fst out = Raised (AlreadySubgroup g)
       ∧ kind_of (AlreadySubgroup g) = ConflictError
       ∧ store (snd out) = store w.
Proof.
  intros Haccess Hall (g & Hg & Hedge) out. subst out.
  assert (ids ≠ []) as Hne by (intros ->; by apply elem_of_nil in Hg).
  rewrite add_subgroups_run_checks by done.
  destruct (find _ (remove_dups ids)) as [g'|] eqn:Hfind.
  - apply find_some in Hfind as [Hg' Hdirect]. apply list_elem_of_In in Hg'.
    rewrite elem_of_remove_dups in Hg'.
    apply bool_decide_eq_true, elem_of_direct_subgroup_ids in Hdirect.
    exists g'. done.
  - exfalso. eapply find_none_iff in Hfind; [|by rewrite elem_of_remove_dups].
    apply bool_decide_eq_false in Hfind. apply Hfind.
    by apply elem_of_direct_subgroup_ids.
Qed.

Lemma add_subgroups_conflict_first_witness :
  let out := add_subgroups_to_group_backend Sample.alice 100 [101] Sample.nested in
  ∃ g, g ∈ [101] ∧ (100, g) ∈ subgroup_edges (store Sample.nested)
       ∧ fst out = Raised (AlreadySubgroup g)
       ∧ kind_of (AlreadySubgroup g) = ConflictError
       ∧ store (snd out) = store Sample.nested.
Proof.
  apply (add_subgroups_conflict_first Sample.alice 100 [101] Sample.nested).
  - vm_compute. reflexivity.
  - intros g ->%list_elem_of_singleton. vm_compute. reflexivity.
  - exists 101. split; [by left|]. apply (bool_decide_unpack _). vm_compute. exact I.
Defined.

(** X9.  With the supergroup and every candidate resolved,
    [remove_subgroups_from_group_backend] succeeds on a non-empty list exactly
    when every candidate is a direct subgroup; it then removes exactly the
    edges to the candidates.  Otherwise it fails with "not a subgroup" for a
    candidate that is none, and no row changes. *)
Theorem remove_subgroups_succeeds_iff
    (user_profile : UserProfile) (p : Z) (ids : list Z) (w : World) :
  ids ≠ [] →
  is_named (store w) p && in_realm (store w) (user_realm user_profile) p = true →
  (∀ g, g ∈ ids → in_realm (store w) (user_realm user_profile) g = true) →
  let E := subgroup_edges (store w) in
  let out := remove_subgroups_from_group_backend user_profile p ids w in
  (fst out = Ok tt ↔ ∀ g, g ∈ ids → (p, g) ∈ E)
  ∧ (fst out = Ok tt →
     store (snd out) = set_subgroup_edges (λ E, E ∖ edges_from p ids) (store w))
  ∧ ((fst out ≠ Ok tt) →
     ∃ g, g ∈ ids ∧ ((p, g) ∉ E)
          ∧ fst out = Raised (NotSubgroup g) ∧ store (snd out) = store w).
Proof.
  intros Hne Haccess Hall E out. subst out.
  rewrite remove_subgroups_run by done. fold E.
  destruct (find _ (remove_dups ids)) as [g|] eqn:Hfind; cbn [fst snd store].
  - apply find_some in Hfind as [Hg Hnot]. apply list_elem_of_In in Hg.
    rewrite elem_of_remove_dups in Hg.
    apply bool_decide_eq_true in Hnot. rewrite elem_of_direct_subgroup_ids in Hnot.
    split; [|split]; [| done |].
    + split; [done|]. intros Hevery. by destruct (Hnot (Hevery g Hg)).
    + intros _. by exists g.
  - split; [|split]; [| done | done].
    split; [|done]. intros _ g Hg.
    eapply find_none_iff in Hfind; [|by rewrite elem_of_remove_dups].
    apply bool_decide_eq_false in Hfind. rewrite elem_of_direct_subgroup_ids in Hfind.
    by apply dec_stable.
Qed.

Lemma remove_subgroups_succeeds_iff_witness :
  let E := subgroup_edges (store Sample.nested) in
  let out := remove_subgroups_from_group_backend Sample.alice 100 [101] Sample.nested in
  (fst out = Ok tt ↔ ∀ g, g ∈ [101] → (100, g) ∈ E)
  ∧ (fst out = Ok tt →
     store (snd out)
     = set_subgroup_edges (λ E, E ∖ edges_from 100 [101]) (store Sample.nested))
  ∧ ((fst out ≠ Ok tt) →
     ∃ g, g ∈ [101] ∧ ((100, g) ∉ E)
          ∧ fst out = Raised (NotSubgroup g) ∧ store (snd out) = store Sample.nested).
Proof.
  apply (remove_subgroups_succeeds_iff Sample.alice 100 [101] Sample.nested).
  - discriminate.
  - vm_compute. reflexivity.
  - intros g ->%list_elem_of_singleton. vm_compute. reflexivity.
Defined.

Lemma union_then_difference_edges (A : gset (Z * Z)) (s : Store) :
  (∀ e, e ∈ A → e ∉ subgroup_edges s) →
  set_subgroup_edges (λ E, E ∖ A) (set_subgroup_edges (λ E, E ∪ A) s) = s.
Proof.
  intros Hfresh. destruct s as [us gs ms es n]. unfold set_subgroup_edges. cbn in *.
  f_equal. apply set_eq. intros e. rewrite elem_of_difference, elem_of_union.
  split; [by intros [[?|?] ?] | intros He; split; [by left | by intros ?%Hfresh]].
Qed.

(** X10.  Removing the subgroups a request has just added gives back the
    store the request found: [remove_subgroups_from_group_backend], run with
    the same list after a served [add_subgroups_to_group_backend], is served
    and leaves every row as it was before the addition. *)
Theorem add_then_remove_subgroups_round_trip
    (user_profile : UserProfile) (p : Z) (ids : list Z) (w : World) :
  let added := add_subgroups_to_group_backend user_profile p ids w in
  fst added = Ok tt →
  let removed := remove_subgroups_from_group_backend user_profile p ids (snd added) in
  fst removed = Ok tt ∧ store (snd removed) = store w.
Proof.
  intros added Hok removed. subst added removed.
  destruct (decide (ids = [])) as [-> | Hne]; [done|].
  assert (is_named (store w) p && in_realm (store w) (user_realm user_profile) p = true
          ∧ ∀ g, g ∈ ids → in_realm (store w) (user_realm user_profile) g = true)
    as [Haccess Hall].
  { revert Hok. unfold add_subgroups_to_group_backend.
    rewrite bool_decide_eq_false_2 by done.
    match goal with
    | |- context [lock_subgroups_with_respect_to_supergroup ids p user_profile ?b w] =>
        destruct (lock_subgroups_cases ids p user_profile b w) as [[e ->] | Hresolved]
    end; done. }
  revert Hok. rewrite add_subgroups_run_checks by done.
  destruct (find _ (remove_dups ids)) as [g|] eqn:Hfind; [done|].
  case_bool_decide; [done|]. intros _. cbn [snd].
  rewrite remove_subgroups_run by done. cbn [store log].
  assert (∀ g, g ∈ ids → (p, g) ∉ subgroup_edges (store w)) as Hnew.
  { intros g Hg. eapply find_none_iff in Hfind; [|by rewrite elem_of_remove_dups].
    apply bool_decide_eq_false in Hfind. by rewrite elem_of_direct_subgroup_ids in Hfind. }
  assert (find (λ g, bool_decide
             (g ∉ direct_subgroup_ids
                (subgroup_edges
                   (set_subgroup_edges (λ E, E ∪ edges_from p ids) (store w))) p))
             (remove_dups ids) = None) as ->.
  { apply find_none_iff. intros g Hg. rewrite elem_of_remove_dups in Hg.
    apply bool_decide_eq_false. intros Hnot. apply Hnot, elem_of_direct_subgroup_ids.
    cbn. apply elem_of_union. right. by apply elem_of_edges_from. }
  split; [done|]. cbn [snd store]. apply union_then_difference_edges.
  intros [a b] [-> Hb]%elem_of_edges_from. by apply Hnew.
Qed.

Lemma add_then_remove_subgroups_round_trip_witness :
  let added := add_subgroups_to_group_backend Sample.alice 100 [101] Sample.with_leads in
  let removed := remove_subgroups_from_group_backend Sample.alice 100 [101] (snd added) in
  fst removed = Ok tt ∧ store (snd removed) = store Sample.with_leads.
Proof.
  apply (add_then_remove_subgroups_round_trip Sample.alice 100 [101] Sample.with_leads).
  vm_compute. reflexivity.
Defined.

(** X11.  [add_subgroups_to_group_backend] never makes a group its own
    recursive subgroup: whenever the supergroup is among the candidates, or
    can be reached from one of them along subgroup edges, the request fails
    and no row changes; this needs no assumption on what resolves. *)
Theorem add_subgroups_refuses_cycles
    (user_profile : UserProfile) (p : Z) (ids : list Z) (w : World) :
  p ∈ ids ∨ (∃ g, g ∈ ids ∧ tc (edge (subgroup_edges (store w))) g p) →
  let out := add_subgroups_to_group_backend user_profile p ids w in
  (∃ e, fst out = Raised e) ∧ store (snd out) = store w.
Proof.
  intros Hcycle out. pose proof (add_subgroups_result user_profile p ids w) as Hres.
  fold out in Hres. cbn zeta in Hres.
  destruct (fst out) as [[]|e].
  - by destruct Hres as (_ & _ & Hnot).
  - split; [by eexists | done].
Qed.

Lemma add_subgroups_refuses_cycles_witness :
  let out := add_subgroups_to_group_backend Sample.alice 100 [101; 100] Sample.with_leads in
  (∃ e, fst out = Raised e) ∧ store (snd out) = store Sample.with_leads.
Proof.
  apply (add_subgroups_refuses_cycles Sample.alice 100 [101; 100] Sample.with_leads).
  left. apply elem_of_cons. right. by left.
Defined.

End SubgroupViews.

(** X12.  A dict compares equal, after parsing, to an anonymous setting
    exactly when it has the same members and the same subgroups as sets and
    is not of the collapsed shape (no members, one subgroup).  So against an
    anonymous setting with no members and the single subgroup [g], the dict
    with no members and the subgroup list [[g]] counts as a change, while the
    list [[g; g]] does not. *)
Theorem unchanged_against_anonymous (spec : AnonymousSettingGroupDict)
    (raw_value : SettingValue.raw) :
  (settingChanged (Anonymous spec) (parse_group_setting_value raw_value) = false
   ↔ ∃ members subgroups,
       raw_value = RawDict members subgroups
       ∧ ¬ (members = [] ∧ length subgroups = 1%nat)
       ∧ py_set (SettingValue.direct_members spec) = py_set members
       ∧ py_set (SettingValue.direct_subgroups spec) = py_set subgroups)
  ∧ ∀ g, settingChanged (Anonymous (mkAnon [] [g]))
                        (parse_group_setting_value (RawDict [] [g])) = true
         ∧ settingChanged (Anonymous (mkAnon [] [g]))
                          (parse_group_setting_value (RawDict [] [g; g])) = false.
Proof.
  split.
  2:{ intros g. split; [reflexivity|]. unfold settingChanged.
      apply negb_false_iff, anonymous_equal_iff. split; [done|].
      apply py_set_eq_iff. intros x. cbn. rewrite !elem_of_cons. tauto. }
  unfold settingChanged. rewrite negb_false_iff.
  destruct raw_value as [n | members subgroups].
  - cbn. split; [done | by intros (? & ? & [=] & _)].
  - destruct (parse_dict_cases members subgroups)
      as [(-> & g0 & -> & ->) | [Hshape ->]].
    + cbn. split; [done|]. intros (m & sg & [= <- <-] & Hnot & _). by destruct Hnot.
    + rewrite anonymous_equal_iff. cbn. split.
      * intros [Hm Hs]. by exists members, subgroups.
      * by intros (m & sg & [= <- <-] & _ & Hm & Hs).
Qed.

(** ** What the single-list operations leave alone *)

Section Frame.
Import Graph.

Lemma direct_member_ids_other (f : gset (Z * Z) → gset (Z * Z)) (A : gset (Z * Z))
    (s : Store) (gid other : Z) :
  (∀ m e, e ∈ f m ↔ (e ∈ m ∧ e ∉ A) ∨ (e ∈ A ∧ e ∈ f A)) →
  (∀ a b, (a, b) ∈ A → a = gid) →
  other ≠ gid →
  direct_member_ids (set_memberships f s) other = direct_member_ids s other.
Proof.
  intros Hf HA Hother. apply set_eq. intros uid.
  rewrite !elem_of_direct_member_ids. cbn. rewrite Hf. split.
  - intros [[? _] | [Hin _]]; [done|]. by apply HA in Hin.
  - intros Hin. left. split; [done|]. intros HinA. by apply HA in HinA.
Qed.

Lemma direct_subgroup_ids_other (f : gset (Z * Z) → gset (Z * Z)) (A : gset (Z * Z))
    (s : Store) (p other : Z) :
  (∀ m e, e ∈ f m ↔ (e ∈ m ∧ e ∉ A) ∨ (e ∈ A ∧ e ∈ f A)) →
  (∀ a b, (a, b) ∈ A → a = p) →
  other ≠ p →
  direct_subgroup_ids (subgroup_edges (set_subgroup_edges f s)) other
  = direct_subgroup_ids (subgroup_edges s) other.
Proof.
  intros Hf HA Hother. apply set_eq. intros g.
  rewrite !elem_of_direct_subgroup_ids. cbn. rewrite Hf. split.
  - intros [[? _] | [Hin _]]; [done|]. by apply HA in Hin.
  - intros Hin. left. split; [done|]. intros HinA. by apply HA in HinA.
Qed.

Lemma union_shape (A m : gset (Z * Z)) (e : Z * Z) :
  e ∈ m ∪ A ↔ (e ∈ m ∧ e ∉ A) ∨ (e ∈ A ∧ e ∈ A ∪ A).
Proof. destruct (decide (e ∈ A)); set_solver. Qed.

Lemma difference_shape (A m : gset (Z * Z)) (e : Z * Z) :
  e ∈ m ∖ A ↔ (e ∈ m ∧ e ∉ A) ∨ (e ∈ A ∧ e ∈ A ∖ A).
Proof. set_solver. Qed.

Lemma edges_from_source (gid : Z) (ids : list Z) (a b : Z) :
  (a, b) ∈ edges_from gid ids → a = gid.
Proof. by intros [-> _]%elem_of_edges_from. Qed.

(** X13.  The member operations touch the member rows of their group only,
    and the subgroup operations the subgroup rows of their supergroup only:
    however the request ends, the group table and the id sequence are as
    before; adding or removing members changes no subgroup edge and no other
    group's members; adding or removing subgroups changes no membership and
    no other group's direct subgroups. *)
Theorem single_list_operations_frame
    (user_profile : UserProfile) (user_group_id : Z) (ids : list Z) (w : World) :
  let s := store w in
  let members_only (out : Result unit * World) :=
    groups (store (snd out)) = groups s
    ∧ next_group_id (store (snd out)) = next_group_id s
    ∧ subgroup_edges (store (snd out)) = subgroup_edges s
    ∧ ∀ other, other ≠ user_group_id →
        direct_member_ids (store (snd out)) other = direct_member_ids s other in
  let subgroups_only (out : Result unit * World) :=
    groups (store (snd out)) = groups s
    ∧ next_group_id (store (snd out)) = next_group_id s
    ∧ memberships (store (snd out)) = memberships s
    ∧ ∀ other, other ≠ user_group_id →
        direct_subgroup_ids (subgroup_edges (store (snd out))) other
        = direct_subgroup_ids (subgroup_edges s) other in
  members_only (add_members_to_group_backend user_profile user_group_id ids w)
  ∧ members_only (remove_members_from_group_backend user_profile user_group_id ids w)
  ∧ subgroups_only (add_subgroups_to_group_backend user_profile user_group_id ids w)
  ∧ subgroups_only (remove_subgroups_from_group_backend user_profile user_group_id ids w).
Proof.
  intros s members_only subgroups_only. subst members_only subgroups_only. cbv beta.
  split; [|split; [|split]].
  - pose proof (add_members_result user_profile user_group_id ids w) as Hres.
    cbn zeta in Hres.
    destruct (fst (add_members_to_group_backend user_profile user_group_id ids w));
      rewrite Hres; [|done].
    repeat split. intros other Hother.
    eapply direct_member_ids_other; [apply union_shape | apply edges_from_source | done].
  - pose proof (remove_members_result user_profile user_group_id ids w) as Hres.
    cbn zeta in Hres.
    destruct (fst (remove_members_from_group_backend user_profile user_group_id ids w));
      rewrite Hres; [|done].
    repeat split. intros other Hother.
    eapply direct_member_ids_other;
      [apply difference_shape | apply edges_from_source | done].
  - pose proof (add_subgroups_result user_profile user_group_id ids w) as Hres.
    cbn zeta in Hres.
    destruct (fst (add_subgroups_to_group_backend user_profile user_group_id ids w));
      [destruct Hres as [Hres _] |]; rewrite Hres; [|done].
    repeat split. intros other Hother.
    eapply direct_subgroup_ids_other;
      [apply union_shape | apply edges_from_source | done].
  - pose proof (remove_subgroups_result user_profile user_group_id ids w) as Hres.
    cbn zeta in Hres.
    destruct (fst (remove_subgroups_from_group_backend user_profile user_group_id ids w));
      rewrite Hres; [|done].
    repeat split. intros other Hother.
    eapply direct_subgroup_ids_other;
      [apply difference_shape | apply edges_from_source | done].
Qed.

End Frame.

(** ** Creating and editing a group *)

Section CreateAndEdit.
Context {C : Collaborators}.

Lemma edit_settings_loop_without_setting (u : UserProfile) (gid : Z)
    (table : list (string * PermissionConfig)) (w : World) :
  for_each table (edit_user_group_setting u gid None) w = (Ok tt, w).
Proof.
  induction table as [|[setting_name cfg] table IH]; [done|].
  cbn [for_each]. unfold bind at 1.
  assert (edit_user_group_setting u gid None (setting_name, cfg) w = (Ok tt, w)) as ->;
    [|exact IH].
  unfold edit_user_group_setting, request_settings_dict. by case_bool_decide.
Qed.

Lemma add_settings_loop_without_setting (u : UserProfile)
    (table : list (string * PermissionConfig)) (settings : gmap string Z) (w : World) :
  add_user_group_settings u None table settings w = (Ok settings, w).
Proof.
  induction table as [|[setting_name cfg] table IH]; [done|].
  cbn [add_user_group_settings]. unfold bind at 1.
  assert (add_user_group_setting u None settings (setting_name, cfg) w = (Ok settings, w))
    as ->; [|exact IH].
  unfold add_user_group_setting, request_settings_dict. by case_bool_decide.
Qed.

(** X14.  A request to [edit_user_group] that only repeats the name and the
    description the group has is served without any change: nothing is
    renamed, the name is not even validated, and the only thing done is the
    lookup of the group. *)
Theorem edit_with_current_values_changes_nothing
    (user_profile : UserProfile) (user_group_id : Z)
    (name description : option string) (w : World) :
  let s := store w in
  is_named s user_group_id && in_realm s (user_realm user_profile) user_group_id = true →
  name = None ∨ name = group_name (group_row s user_group_id) →
  description = None ∨ description = Some (group_description (group_row s user_group_id)) →
  ¬ (name = None ∧ description = None) →
  edit_user_group user_profile user_group_id name description None w
  = (Ok tt, mkWorld s (log w ++ [ReadGroup user_group_id])).
Proof.
  intros s Haccess Hname Hdescription Hsome. unfold edit_user_group.
  match goal with
  | |- context [if ?guard then raise NoNewDataSupplied else _] =>
      destruct guard eqn:Hguard
  end.
  { apply andb_true_iff in Hguard as [Hguard _].
    apply andb_true_iff in Hguard as [Hn%bool_decide_eq_true Hd%bool_decide_eq_true].
    by destruct Hsome. }
  apply atomic_ok_eq.
  erewrite bind_ok; [|rewrite access_user_group_by_id_run; fold s; by rewrite Haccess].
  rewrite bind_query. cbn [store].
  erewrite bind_ok.
  2:{ destruct name as [n|]; [|reflexivity].
      rewrite bool_decide_eq_false_2; [reflexivity|].
      intros Hne. destruct Hname as [[=] | Heq]. by apply Hne. }
  erewrite bind_ok.
  2:{ destruct description as [d|]; [|reflexivity].
      rewrite bool_decide_eq_false_2; [reflexivity|].
      intros Hne. destruct Hdescription as [[=] | [= Heq]]. by apply Hne. }
  apply edit_settings_loop_without_setting.
Qed.

End CreateAndEdit.

Lemma edit_with_current_values_changes_nothing_witness :
  edit_user_group (C := Sample.collaborators) Sample.alice 101
                  (Some "leads"%string) (Some "team leads"%string) None Sample.with_leads
  = (Ok tt, mkWorld (store Sample.with_leads) (log Sample.with_leads ++ [ReadGroup 101])).
Proof.
  apply (edit_with_current_values_changes_nothing (C := Sample.collaborators)
           Sample.alice 101 (Some "leads"%string) (Some "team leads"%string)
           Sample.with_leads).
  - vm_compute. reflexivity.
  - right. vm_compute. reflexivity.
  - right. vm_compute. reflexivity.
  - by intros [[=] _].
Defined.

Section SettingAndCreation.
Context {C : Collaborators}.

(** X15.  Pointing the setting at a plain group.  Let the permission table
    hold the one setting [can_mention_group], the group resolve for the
    caller, the request value parse to the plain id [g'] and differ from
    the current value, and the request carry no new name and no new
    description: each of the two is either omitted or repeats what the group
    has.  Then [edit_user_group] fails with "Invalid user
    group" when [g'] is no group of the realm, with "Insufficient permission"
    when the caller may not use [g'] for the setting, and otherwise succeeds;
    on success the group's setting is [g'] and no group is created; on
    failure no row changes. *)
Theorem edit_setting_to_plain_group
    (user_profile : UserProfile) (user_group_id : Z)
    (name description : option string) (raw_value : SettingValue.raw)
    (g' : Z) (cfg : PermissionConfig) (w : World) :
  let s := store w in
  GROUP_PERMISSION_SETTINGS = [("can_mention_group"%string, cfg)] →
  is_named s user_group_id && in_realm s (user_realm user_profile) user_group_id = true →
  name = None ∨ name = group_name (group_row s user_group_id) →
  description = None ∨ description = Some (group_description (group_row s user_group_id)) →
  parse_group_setting_value raw_value = GroupId g' →
  check_setting_value_changed s (getattr_setting s user_group_id) (GroupId g') = true →
  let out :=
    edit_user_group user_profile user_group_id name description (Some raw_value) w in
  fst out = (if negb (in_realm s (user_realm user_profile) g')
             then Raised InvalidUserGroup
             else if negb (setting_group_permitted cfg user_profile s g')
                  then Raised SettingGroupNotPermitted
                  else Ok tt)
  ∧ (fst out = Ok tt →
     getattr_setting (store (snd out)) user_group_id = g'
     ∧ dom (groups (store (snd out))) = dom (groups s)
     ∧ next_group_id (store (snd out)) = next_group_id s
     ∧ memberships (store (snd out)) = memberships s
     ∧ subgroup_edges (store (snd out)) = subgroup_edges s)
  ∧ ((fst out ≠ Ok tt) → store (snd out) = s).
Proof.
  intros s Htable Haccess Hname Hdescription Hparse Hchanged out. subst out.
  unfold edit_user_group. rewrite Htable.
  rewrite (bool_decide_eq_false_2 (Some raw_value = None)) by done.
  rewrite andb_false_r.
  set (l1 := log w ++ [ReadGroup user_group_id]).
  set (w2 := mkWorld s (l1 ++ [ResolvedSetting (GroupId g')])).
  match goal with
  | |- context [atomic ?m w] => set (inner := m)
  end.
  assert (inner w
          = if negb (in_realm s (user_realm user_profile) g')
            then (Raised InvalidUserGroup, w2)
            else if negb (setting_group_permitted cfg user_profile s g')
                 then (Raised SettingGroupNotPermitted, w2)
                 else (Ok tt,
                       mkWorld (set_groups
                                  (alter (λ g, mkGroup (group_realm g) (group_name g)
                                                       (group_description g) g')
                                         user_group_id) s)
                               (log w2))) as Hinner.
  { subst inner. cbv beta.
    erewrite bind_ok; [|rewrite access_user_group_by_id_run; fold s; by rewrite Haccess].
    fold l1. rewrite bind_query. cbn [store].
    erewrite bind_ok.
    2:{ destruct name as [n|]; [|reflexivity].
        rewrite bool_decide_eq_false_2; [reflexivity|].
        intros Hne. destruct Hname as [[=] | Heq]. by apply Hne. }
    erewrite bind_ok.
    2:{ destruct description as [d|]; [|reflexivity].
        rewrite bool_decide_eq_false_2; [reflexivity|].
        intros Hne. destruct Hdescription as [[=] | [= Heq]]. by apply Hne. }
    cbn [for_each]. unfold edit_user_group_setting, request_settings_dict.
    rewrite bool_decide_eq_true_2 by done. unfold bind at 1.
    rewrite bind_query. cbn [store]. rewrite Hparse, Hchanged.
    unfold bind at 1. unfold access_user_group_for_setting.
    unfold bind at 1, emit at 1. rewrite bind_query. cbn [store log]. fold w2.
    destruct (negb (in_realm s (user_realm user_profile) g')); [done|].
    destruct (negb (setting_group_permitted cfg user_profile s g')); [done|].
    unfold ret at 1. unfold do_change_user_group_permission_setting.
    rewrite bool_decide_eq_true_2 by done. done. }
  unfold atomic. rewrite Hinner.
  destruct (negb (in_realm s (user_realm user_profile) g')).
  { split; [done|]. split; [done | done]. }
  destruct (negb (setting_group_permitted cfg user_profile s g')).
  { split; [done|]. split; [done | done]. }
  split; [done|]. split; [|done]. intros _. cbn [fst snd store].
  split; [|split; [|done]].
  - unfold getattr_setting, set_groups. cbn [groups]. rewrite lookup_alter.
    rewrite decide_True by done.
    apply andb_true_iff in Haccess as [Hnamed _]. unfold is_named in Hnamed.
    by destruct (groups s !! user_group_id).
  - unfold set_groups. cbn [groups]. apply dom_alter_L.
Qed.

End SettingAndCreation.

Lemma edit_setting_to_plain_group_witness :
  let s := store Sample.with_leads in
  let out := edit_user_group (C := Sample.collaborators) Sample.alice 101
               (Some "leads"%string) None
               (Some (RawDict [] [100])) Sample.with_leads in
  fst out = (if negb (in_realm s (user_realm Sample.alice) 100)
             then Raised InvalidUserGroup
             else if negb (setting_group_permitted (Collaborators := Sample.collaborators)
                             tt Sample.alice s 100)
                  then Raised SettingGroupNotPermitted
                  else Ok tt)
  ∧ (fst out = Ok tt →
     getattr_setting (store (snd out)) 101 = 100
     ∧ dom (groups (store (snd out))) = dom (groups s)
     ∧ next_group_id (store (snd out)) = next_group_id s
     ∧ memberships (store (snd out)) = memberships s
     ∧ subgroup_edges (store (snd out)) = subgroup_edges s)
  ∧ ((fst out ≠ Ok tt) → store (snd out) = s).
Proof.
  apply (edit_setting_to_plain_group (C := Sample.collaborators) Sample.alice 101
           (Some "leads"%string) None (RawDict [] [100]) 100 tt Sample.with_leads).
  - reflexivity.
  - vm_compute. reflexivity.
  - right. vm_compute. reflexivity.
  - by left.
  - reflexivity.
  - vm_compute. reflexivity.
Defined.

Section Creation.
Context {C : Collaborators}.

(** X16.  Creating a group without a permission setting.  [add_user_group]
    succeeds exactly when every member id resolves to a user of the realm,
    the name is accepted and no group of the realm has the cleaned name.  The
    new group then takes the next id of the sequence, with the cleaned name,
    the description, the listed members and no subgroup; nothing is resolved.
    When the request fails, no row changes. *)
Theorem add_user_group_without_setting
    (user_profile : UserProfile) (name : string) (members : list Z)
    (description : string) (w : World) :
  let s := store w in
  let realm := user_realm user_profile in
  let out := add_user_group user_profile name members description None w in
  (fst out = Ok tt
   ↔ (∀ uid, uid ∈ members → is_Some (known_user s realm uid))
     ∧ ∃ cleaned, clean_user_group_name name = Some cleaned
                  ∧ name_taken s realm cleaned = false)
  ∧ (∀ cleaned, fst out = Ok tt → clean_user_group_name name = Some cleaned →
       store (snd out)
       = set_memberships (λ m, m ∪ edges_from (next_group_id s) members)
           (insert_group (next_group_id s)
              (mkGroup realm (Some cleaned) description (default_setting_group realm)) s)
       ∧ log (snd out) = log w ++ [ReadUsers members])
  ∧ ((fst out ≠ Ok tt) → store (snd out) = s).
Proof.
  intros s realm out.
  assert (out
          = match resolve_users s realm (remove_dups members) with
            | Raised e => (Raised e, mkWorld s (log w ++ [ReadUsers members]))
            | Ok us =>
                match clean_user_group_name name with
                | None => (Raised InvalidGroupName,
                           mkWorld s (log w ++ [ReadUsers members]))
                | Some cleaned =>
                    if name_taken s realm cleaned
                    then (Raised GroupNameTaken, mkWorld s (log w ++ [ReadUsers members]))
                    else (Ok tt,
                          mkWorld
                            (set_memberships
                               (λ m, m ∪ edges_from (next_group_id s) (user_id <$> us))
                               (insert_group (next_group_id s)
                                  (mkGroup realm (Some cleaned) description
                                           (default_setting_group realm)) s))
                            (log w ++ [ReadUsers members]))
                end
            end) as Hrun.
  { subst out. unfold add_user_group.
    unfold bind at 1. rewrite user_ids_to_users_run. fold s realm.
    destruct (resolve_users s realm (remove_dups members)) as [us|e]; [|done].
    unfold bind at 1. unfold check_user_group_name at 1.
    destruct (clean_user_group_name name) as [cleaned|]; [|done].
    unfold ret at 1. unfold bind at 1. rewrite add_settings_loop_without_setting.
    unfold bind at 1. unfold check_add_user_group. rewrite bind_query. cbn [store].
    fold s. destruct (name_taken s realm cleaned); [done|].
    cbn [fst snd store log bind update ret]. by rewrite lookup_empty. }
  clearbody out. subst out.
  destruct (resolve_users s realm (remove_dups members)) as [us|e] eqn:Hus.
  2:{ split; [|split; [done | done]]. split; [done|]. intros [Hall _].
      assert (∃ us, resolve_users s realm (remove_dups members) = Ok us)
        as [us Hok]; [|congruence].
      apply resolve_users_ok_iff. intros uid Huid. apply Hall.
      by rewrite elem_of_remove_dups in Huid. }
  assert (∀ uid, uid ∈ members → is_Some (known_user s realm uid)) as Hall.
  { intros uid Huid. eapply resolve_users_ok_iff; [by eexists|].
    by rewrite elem_of_remove_dups. }
  destruct (clean_user_group_name name) as [cleaned|] eqn:Hclean.
  2:{ split; [|split; [done | done]]. split; [done|]. by intros [_ (cleaned & [=] & _)]. }
  destruct (name_taken s realm cleaned) eqn:Htaken.
  { split; [|split; [done | done]]. split; [done|].
    intros [_ (cleaned' & [= <-] & Hfree)]. congruence. }
  cbn [fst snd store log]. split; [|split; [|done]].
  - split; [|done]. intros _. split; [done|]. by exists cleaned.
  - intros cleaned' _ [= <-]. split; [|done].
    by rewrite (resolve_users_ids _ _ _ _ Hus), edges_from_remove_dups.
Qed.

End Creation.

(** ** An update request with one list *)

Section OneList.

Lemma compose_views_only_first (first second : M unit) (w : World) :
  (∀ w', second w' = (Ok tt, w')) →
  (∀ e, fst (first w) = Raised e → store (snd (first w)) = store w) →
  compose_views [first; second] w = first w.
Proof.
  intros Hsecond Hraised. rewrite compose_views_two.
  destruct (first w) as [[[]|e] w1] eqn:Hfirst; cbn [fst snd] in *.
  - by rewrite Hsecond.
  - rewrite <- (Hraised e eq_refl). by destruct w1.
Qed.

Lemma compose_views_only_second (first second : M unit) (w : World) :
  first w = (Ok tt, w) →
  (∀ e, fst (second w) = Raised e → store (snd (second w)) = store w) →
  compose_views [first; second] w = second w.
Proof.
  intros Hfirst Hraised. rewrite compose_views_two, Hfirst.
  destruct (second w) as [[[]|e] w2] eqn:Hsecond; cbn [fst snd] in *; [done|].
  rewrite <- (Hraised e eq_refl). by destruct w2.
Qed.

Lemma raised_store_of_result (out : Result unit * World) (s s' : Store) :
  match fst out with
  | Ok _ => store (snd out) = s'
  | Raised _ => store (snd out) = s
  end →
  ∀ e, fst out = Raised e → store (snd out) = s.
Proof. intros Hres e He. by rewrite He in Hres. Qed.

(** X17.  An update request in which only one of the two lists is non-empty
    is exactly the single operation on that list: the views for members and
    for subgroups return what the add operation, respectively the remove
    operation, returns on its own, result and world alike. *)
Theorem update_with_one_list_is_single_operation
    (user_profile : UserProfile) (user_group_id : Z) (ids : list Z) (w : World) :
  ids ≠ [] →
  update_user_group_backend user_profile user_group_id [] ids w
    = add_members_to_group_backend user_profile user_group_id ids w
  ∧ update_user_group_backend user_profile user_group_id ids [] w
    = remove_members_from_group_backend user_profile user_group_id ids w
  ∧ update_subgroups_of_user_group user_profile user_group_id [] ids w
    = add_subgroups_to_group_backend user_profile user_group_id ids w
  ∧ update_subgroups_of_user_group user_profile user_group_id ids [] w
    = remove_subgroups_from_group_backend user_profile user_group_id ids w.
Proof.
  intros Hne. unfold update_user_group_backend, update_subgroups_of_user_group.
  rewrite !(bool_decide_eq_false_2 (ids = [])) by done.
  rewrite andb_false_r. cbn [andb].
  split; [|split; [|split]].
  - apply compose_views_only_first; [done|].
    apply (raised_store_of_result _ _ _
             (add_members_result user_profile user_group_id ids w)).
  - apply compose_views_only_second; [done|].
    apply (raised_store_of_result _ _ _
             (remove_members_result user_profile user_group_id ids w)).
  - apply compose_views_only_first; [done|].
    pose proof (add_subgroups_result user_profile user_group_id ids w) as Hres.
    cbn zeta in Hres. intros e He. by rewrite He in Hres.
  - apply compose_views_only_second; [done|].
    apply (raised_store_of_result _ _ _
             (remove_subgroups_result user_profile user_group_id ids w)).
Qed.

Lemma update_with_one_list_is_single_operation_witness :
  update_user_group_backend Sample.alice 101 [] [2] Sample.with_leads
    = add_members_to_group_backend Sample.alice 101 [2] Sample.with_leads
  ∧ update_user_group_backend Sample.alice 101 [2] [] Sample.with_leads
    = remove_members_from_group_backend Sample.alice 101 [2] Sample.with_leads
  ∧ update_subgroups_of_user_group Sample.alice 101 [] [2] Sample.with_leads
    = add_subgroups_to_group_backend Sample.alice 101 [2] Sample.with_leads
  ∧ update_subgroups_of_user_group Sample.alice 101 [2] [] Sample.with_leads
    = remove_subgroups_from_group_backend Sample.alice 101 [2] Sample.with_leads.
Proof.
  apply (update_with_one_list_is_single_operation Sample.alice 101 [2] Sample.with_leads).
  discriminate.
Defined.

End OneList.
